(** * Verification of the Docker runtime manager ([docker/manager.go])

    The manager mediates every interaction with the container daemon:
    image presence ([HasImage]), image pull ([PullImage]), registry
    authentication ([getAuthConfig]), container creation
    ([ContainerCreate]) and the fixed system mounts ([GetSystemMounts]).

    Go strings are byte sequences and are modelled by [string]; Go maps are
    [gmap]s; the daemon, the file system and the reference parser are the
    fields of a [Host] record; the methods of [*DockerManager] are
    computations in a state monad over a [World] that holds the manager
    object, the state of its mutex and the trace of observable events. *)

From Stdlib Require Import ZArith NArith Ascii String List.
From stdpp Require Import base option list strings gmap.

Local Open Scope string_scope.
Local Open Scope list_scope.

(** ** Go values used by the manager *)

Inductive result (E A : Type) : Type :=
| Ok (a : A)
| Err (e : E).
Arguments Ok {E A} a.
Arguments Err {E A} e.

(** A Go pointer that may be nil; the manager never aliases the pointers
    it builds, so the pointee is stored in place. *)
Definition ptr (A : Type) : Type := option A.
Definition nil_ptr {A : Type} : ptr A := None.
Definition addr_of {A : Type} (a : A) : ptr A := Some a.

(** Errors of [github.com/docker/distribution/reference]. *)
Inductive reference_error : Type :=
| ErrReferenceInvalidFormat
| ErrTagInvalidFormat
| ErrDigestInvalidFormat
| ErrNameContainsUppercase
| ErrNameEmpty
| ErrNameTooLong
| ErrNameNotCanonical.

(** Errors of [encoding/json]. *)
Inductive json_error : Type :=
| UnsupportedTypeError (kind : string)
| UnsupportedValueError (what : string).

(** The [error] interface: a value of one of the concrete error types of
    the libraries the manager calls. *)
Inductive error : Type :=
| reference_err (e : reference_error)
| json_err (e : json_error)
| client_err (msg : string)
| os_err (msg : string).

(** The error taxonomy: which step an error value comes from. *)
Definition is_ReferenceParseError (e : error) : bool :=
  match e with reference_err _ => true | _ => false end.

(** ** Data model *)

(** [contman.Mount] *)
Record Mount : Type := mkMount {
  Source : string;
  Target : string;
  ReadOnly : bool
}.

(** [contman.Config] *)
Record Config : Type := mkConfig {
  Image : string;
  Cmd : string;
  Env : gmap string string;
  Mounts : list Mount
}.

(** [mount.Type] *)
Inductive mount_Type : Type :=
| TypeZero
| TypeBind
| TypeVolume
| TypeTmpfs.

(** [mount.Mount], the fields the manager sets. *)
Record mount_Mount : Type := mk_mount_Mount {
  m_Type : mount_Type;
  m_Source : string;
  m_Target : string;
  m_ReadOnly : bool
}.

Definition mount_zero : mount_Mount :=
  {| m_Type := TypeZero; m_Source := ""; m_Target := ""; m_ReadOnly := false |}.

(** [container.Config], the fields the manager sets. *)
Record container_Config : Type := mk_container_Config {
  c_Image : string;
  c_Entrypoint : list string;
  c_Cmd : list string;
  c_WorkingDir : string;
  c_Env : list string
}.

(** [container.HostConfig], the fields the manager sets. *)
Record container_HostConfig : Type := mk_container_HostConfig {
  h_Mounts : list mount_Mount;
  h_NetworkMode : string
}.

(** [network.NetworkingConfig]; the manager only ever passes nil. *)
Record NetworkingConfig : Type := mkNetworkingConfig {
  EndpointsConfig : list string
}.

(** [types.ImageSummary] *)
Record ImageSummary : Type := mkImageSummary {
  ID : string;
  RepoTags : list string
}.

(** [types.ImageListOptions] *)
Record ImageListOptions : Type := mkImageListOptions {
  All : bool
}.

(** [types.ImagePullOptions] *)
Record ImagePullOptions : Type := mkImagePullOptions {
  RegistryAuth : string
}.

(** [types.AuthConfig] *)
Record AuthConfig : Type := mkAuthConfig {
  Username : string;
  Password : string;
  Auth : string;
  Email : string;
  ServerAddress : string;
  IdentityToken : string;
  RegistryToken : string
}.

(** The zero value [types.AuthConfig{}]. *)
Definition AuthConfig_zero : AuthConfig :=
  {| Username := ""; Password := ""; Auth := ""; Email := "";
     ServerAddress := ""; IdentityToken := ""; RegistryToken := "" |}.

(** [docker.AuthConfiguration] of go-dockerclient: one stored entry. *)
Record AuthConfiguration : Type := mkAuthConfiguration {
  ac_Username : string;
  ac_Password : string;
  ac_Email : string;
  ac_ServerAddress : string;
  ac_IdentityToken : string;
  ac_RegistryToken : string
}.

(** [docker.AuthConfigurations] *)
Record AuthConfigurations : Type := mkAuthConfigurations {
  Configs : gmap string AuthConfiguration
}.

(** A parsed reference ([reference.Named]). *)
Record Named : Type := mkNamed {
  named_domain : string;
  named_path : string;
  named_tag : option string;
  named_digest : option string
}.

(** [reference.Domain] *)
Definition reference_Domain (named : Named) : string := named_domain named.

(** ** The manager object *)

Record Client : Type := mkClient {
  client_host : string;
  client_version : string
}.

Record Context : Type := mkContext {
  ctx_id : nat
}.

Record CancelFunc : Type := mkCancelFunc {
  cancels : Context
}.

Record MutexRef : Type := mkMutexRef {
  mutex_addr : nat
}.

Record DockerManager : Type := mkDockerManager {
  client : Client;
  context : Context;
  mutex : MutexRef;
  cancel : CancelFunc
}.

(** [DockerContainer], the handle returned by [ContainerCreate]. *)
Record DockerContainer : Type := mkDockerContainer {
  manager : DockerManager;
  id : string
}.

(** ** The world outside the manager *)

Record Host : Type := mkHost {
  reference_ParseNormalizedNamed : string -> result reference_error Named;
  docker_NewAuthConfigurationsFromDockerCfg : result string AuthConfigurations;
  os_Getwd : result string string;
  client_NewEnvClient : result string Client;
  client_ImageList :
    Client -> Context -> ImageListOptions -> result string (list ImageSummary);
  client_ImagePull :
    Client -> Context -> string -> ImagePullOptions -> result string string;
  client_ContainerCreate :
    Client -> Context -> container_Config -> container_HostConfig ->
    ptr NetworkingConfig -> string -> result string string;
  client_NegotiateAPIVersion : Client -> Context -> Client;
  (** the order in which [range] visits a map, which Go leaves open: every
      entry once, in some order *)
  range_map : gmap string string -> list (string * string);
  range_map_perm : forall m, range_map m ≡ₚ map_to_list m
}.

(** Observable events, in the order they happen. *)
Inductive Event : Type :=
| EvLogError (msg : string) (err : error)
| EvReadDockerCfg
| EvGetwd
| EvImageList (cli : Client) (ctx : Context) (opts : ImageListOptions)
| EvImagePull (cli : Client) (ctx : Context) (ref : string) (opts : ImagePullOptions)
| EvContainerCreate (cli : Client) (ctx : Context)
    (config : container_Config) (hostConfig : container_HostConfig)
    (networking : ptr NetworkingConfig) (name : string)
| EvStdout (data : string)
| EvClose
| EvLock (m : MutexRef)
| EvUnlock (m : MutexRef).

(** The calls that reach the daemon. *)
Definition is_daemon_call (e : Event) : bool :=
  match e with
  | EvImageList _ _ _ | EvImagePull _ _ _ _ | EvContainerCreate _ _ _ _ _ _ => true
  | _ => false
  end.

Definition is_pull_call (e : Event) : bool :=
  match e with EvImagePull _ _ _ _ => true | _ => false end.

Definition is_lock (e : Event) : bool :=
  match e with EvLock _ => true | _ => false end.

Record World : Type := mkWorld {
  w_manager : DockerManager;
  w_locked : bool;
  w_trace : list Event
}.

(** ** The monad of manager methods *)

Definition M (A : Type) : Type := World -> A * World.

Definition ret {A : Type} (a : A) : M A := fun w => (a, w).

Definition bind {A B : Type} (c : M A) (k : A -> M B) : M B :=
  fun w => let (a, w') := c w in k a w'.

Declare Scope manager_scope.
Delimit Scope manager_scope with manager.
Notation "x <- c ;; k" := (bind c (fun x => k))
  (at level 100, c at next level, right associativity) : manager_scope.
Notation "c ;; k" := (bind c (fun _ => k))
  (at level 100, right associativity) : manager_scope.
Local Open Scope manager_scope.

Definition get_manager : M DockerManager := fun w => (w_manager w, w).

Definition set_manager (dm : DockerManager) : M unit :=
  fun w => (tt, {| w_manager := dm; w_locked := w_locked w; w_trace := w_trace w |}).

Definition emit (e : Event) : M unit :=
  fun w => (tt, {| w_manager := w_manager w; w_locked := w_locked w;
                   w_trace := w_trace w ++ [e] |}).

(** [sync.Mutex.Lock] and [Unlock], open to every method through
    [dm.mutex]; a second [Lock] would block, which the model records by
    leaving the world as it is without the event. *)
Definition mutex_Lock (m : MutexRef) : M bool :=
  fun w => if w_locked w then (false, w)
           else (true, {| w_manager := w_manager w; w_locked := true;
                          w_trace := w_trace w ++ [EvLock m] |}).

Definition mutex_Unlock (m : MutexRef) : M unit :=
  fun w => (tt, {| w_manager := w_manager w; w_locked := false;
                   w_trace := w_trace w ++ [EvUnlock m] |}).

(** [log.WithError(err).Error(msg)] *)
Definition log_Error (msg : string) (err : error) : M unit :=
  emit (EvLogError msg err).

(** The events a computation adds to the trace. *)
Definition new_events {A : Type} (c : M A) (w : World) : list Event :=
  drop (length (w_trace w)) (w_trace (snd (c w))).

Definition new_daemon_calls {A : Type} (c : M A) (w : World) : list Event :=
  filter (fun e => is_daemon_call e = true) (new_events c w).

(** ** [strings.Contains] *)

Fixpoint strings_HasPrefix (s prefix : string) : bool :=
  match prefix, s with
  | EmptyString, _ => true
  | String _ _, EmptyString => false
  | String a prefix', String b s' =>
      if Ascii.eqb a b then strings_HasPrefix s' prefix' else false
  end.

Fixpoint strings_Contains (s substr : string) : bool :=
  if strings_HasPrefix s substr then true
  else match s with
       | EmptyString => false
       | String _ s' => strings_Contains s' substr
       end.

(** ** [unicode/utf8]: decoding one rune *)

Definition byte_of (a : ascii) : N := N_of_ascii a.

Definition RuneError : N := 0xFFFD.

(** The entry of the table [first] for a leading byte, as the pair of
    the sequence length and the range accepted for the second byte;
    [None] stands for the entry [xx] of an invalid leading byte. *)
Definition utf8_first (b : N) : option (nat * (N * N)) :=
  if (b <? 0xC2)%N then None
  else if (b <=? 0xDF)%N then Some (2, (0x80, 0xBF)%N)
  else if (b =? 0xE0)%N then Some (3, (0xA0, 0xBF)%N)
  else if (b <=? 0xEC)%N then Some (3, (0x80, 0xBF)%N)
  else if (b =? 0xED)%N then Some (3, (0x80, 0x9F)%N)
  else if (b <=? 0xEF)%N then Some (3, (0x80, 0xBF)%N)
  else if (b =? 0xF0)%N then Some (4, (0x90, 0xBF)%N)
  else if (b <=? 0xF3)%N then Some (4, (0x80, 0xBF)%N)
  else if (b =? 0xF4)%N then Some (4, (0x80, 0x8F)%N)
  else None.

Definition is_continuation (b : N) : bool := (0x80 <=? b)%N && (b <=? 0xBF)%N.

(** [utf8.DecodeRuneInString] on a string whose first byte is not ASCII:
    the rune and the number of bytes it takes. *)
Definition DecodeRuneInString (s : string) : N * nat :=
  match s with
  | EmptyString => (RuneError, 0)
  | String a0 rest =>
      let s0 := byte_of a0 in
      if (s0 <? 0x80)%N then (s0, 1)
      else match utf8_first s0 with
      | None => (RuneError, 1)
      | Some (sz, (lo, hi)) =>
          if (String.length s <? sz)%nat then (RuneError, 1)
          else match rest with
          | EmptyString => (RuneError, 1)
          | String a1 rest1 =>
              let s1 := byte_of a1 in
              if (s1 <? lo)%N || (hi <? s1)%N then (RuneError, 1)
              else if (sz <=? 2)%nat
              then (N.lor (N.shiftl (N.land s0 0x1F) 6) (N.land s1 0x3F), 2)
              else match rest1 with
              | EmptyString => (RuneError, 1)
              | String a2 rest2 =>
                  let s2 := byte_of a2 in
                  if negb (is_continuation s2) then (RuneError, 1)
                  else if (sz <=? 3)%nat
                  then (N.lor (N.lor (N.shiftl (N.land s0 0x0F) 12)
                                     (N.shiftl (N.land s1 0x3F) 6))
                              (N.land s2 0x3F), 3)
                  else match rest2 with
                  | EmptyString => (RuneError, 1)
                  | String a3 _ =>
                      let s3 := byte_of a3 in
                      if negb (is_continuation s3) then (RuneError, 1)
                      else (N.lor (N.lor (N.lor (N.shiftl (N.land s0 0x07) 18)
                                                (N.shiftl (N.land s1 0x3F) 12))
                                         (N.shiftl (N.land s2 0x3F) 6))
                                  (N.land s3 0x3F), 4)
                  end
              end
          end
      end
  end.

(** ** [encoding/json]: marshalling *)

Definition hex : string := "0123456789abcdef".

Definition hex_digit (n : N) : ascii :=
  match String.get (N.to_nat n) hex with
  | Some c => c
  | None => "0"%char
  end.

(** [htmlSafeSet]: the ASCII bytes written without escape. *)
Definition htmlSafeSet (b : N) : bool :=
  (0x20 <=? b)%N && (b <? 0x80)%N
  && negb ((b =? 0x22)%N || (b =? 0x26)%N || (b =? 0x3C)%N
           || (b =? 0x3E)%N || (b =? 0x5C)%N).

(** The escape written for an ASCII byte outside [htmlSafeSet]. *)
Definition escape_byte (a : ascii) : string :=
  let b := byte_of a in
  if (b =? 0x5C)%N || (b =? 0x22)%N then String "\" (String a "")
  else if (b =? 0x0A)%N then "\n"
  else if (b =? 0x0D)%N then "\r"
  else if (b =? 0x09)%N then "\t"
  else "\u00" +:+ String (hex_digit (N.shiftr b 4))
                        (String (hex_digit (N.land b 0xF)) "").

(** The loop of [encodeState.string] with [escapeHTML] set. [pending]
    counts the bytes of the current multi-byte rune still to be passed:
    copied when [copy] is set, dropped when the rune was written as an
    escape. *)
Fixpoint encode_string_loop (pending : nat) (copy : bool) (s : string) : string :=
  match s with
  | EmptyString => ""
  | String a rest =>
      match pending with
      | S pending' =>
          if copy then String a (encode_string_loop pending' copy rest)
          else encode_string_loop pending' copy rest
      | O =>
          let b := byte_of a in
          if (b <? 0x80)%N then
            if htmlSafeSet b then String a (encode_string_loop 0 true rest)
            else escape_byte a +:+ encode_string_loop 0 true rest
          else
            let (c, size) := DecodeRuneInString s in
            if (c =? RuneError)%N && (size =? 1)%nat then
              "\ufffd" +:+ encode_string_loop 0 true rest
            else if (c =? 0x2028)%N || (c =? 0x2029)%N then
              "\u202" +:+ String (hex_digit (N.land c 0xF))
                                 (encode_string_loop (size - 1) false rest)
            else String a (encode_string_loop (size - 1) true rest)
      end
  end.

Definition dquote : ascii := ascii_of_N 0x22.

Definition encode_string (s : string) : string :=
  String dquote (encode_string_loop 0 true s) +:+ String dquote "".

(** A Go value as the encoder sees it through reflection. *)
Inductive go_value : Type :=
| VString (s : string)
| VBool (b : bool)
| VNil
| VPtr (v : go_value)
| VStruct (fields : go_fields)
| VChan
| VFunc
with go_fields : Type :=
| FNil
| FCons (name : string) (omitempty : bool) (v : go_value) (rest : go_fields).

(** [isEmptyValue], which decides [omitempty]. *)
Definition isEmptyValue (v : go_value) : bool :=
  match v with
  | VString s => (String.length s =? 0)%nat
  | VBool b => negb b
  | VNil => true
  | _ => false
  end.

(** The encoder behind [json.Marshal]: a struct is written field by field,
    a field tagged [omitempty] left out when empty; channels and functions
    are refused with an [UnsupportedTypeError]. *)
Fixpoint marshal_value (v : go_value) : result json_error string :=
  match v with
  | VString s => Ok (encode_string s)
  | VBool b => Ok (if b then "true" else "false")
  | VNil => Ok "null"
  | VPtr v' => marshal_value v'
  | VStruct fields =>
      match marshal_fields fields true with
      | Err e => Err e
      | Ok body => Ok ("{" +:+ body)
      end
  | VChan => Err (UnsupportedTypeError "chan")
  | VFunc => Err (UnsupportedTypeError "func")
  end
with marshal_fields (fs : go_fields) (first : bool) : result json_error string :=
  match fs with
  | FNil => Ok "}"
  | FCons name omitempty fv rest =>
      if omitempty && isEmptyValue fv then marshal_fields rest first
      else
        match marshal_value fv with
        | Err e => Err e
        | Ok encoded =>
            match marshal_fields rest false with
            | Err e => Err e
            | Ok tail =>
                Ok ((if first then "" else ",") +:+ encode_string name
                    +:+ ":" +:+ encoded +:+ tail)
            end
        end
  end.

Definition json_Marshal (v : go_value) : result json_error string :=
  marshal_value v.

(** [types.AuthConfig] as the encoder sees it: seven string fields, each
    tagged with its JSON name and [omitempty]. *)
Definition reflect_AuthConfig (a : AuthConfig) : go_value :=
  VStruct
    (FCons "username" true (VString (Username a))
    (FCons "password" true (VString (Password a))
    (FCons "auth" true (VString (Auth a))
    (FCons "email" true (VString (Email a))
    (FCons "serveraddress" true (VString (ServerAddress a))
    (FCons "identitytoken" true (VString (IdentityToken a))
    (FCons "registrytoken" true (VString (RegistryToken a)) FNil))))))).

Definition reflect_AuthConfig_ptr (p : ptr AuthConfig) : go_value :=
  match p with
  | None => VNil
  | Some a => VPtr (reflect_AuthConfig a)
  end.

(** ** [encoding/base64]: [URLEncoding.EncodeToString] *)

Definition encodeURL : string :=
  "ABCDEFGHIJKLMNOPQRSTUVWXYZabcdefghijklmnopqrstuvwxyz0123456789-_".

Definition StdPadding : ascii := "="%char.

Definition enc_encode (i : N) : ascii :=
  match String.get (N.to_nat i) encodeURL with
  | Some c => c
  | None => StdPadding
  end.

Fixpoint base64_Encode (src : string) : string :=
  match src with
  | String a0 (String a1 (String a2 rest)) =>
      let val := N.lor (N.lor (N.shiftl (byte_of a0) 16) (N.shiftl (byte_of a1) 8))
                       (byte_of a2) in
      String (enc_encode (N.land (N.shiftr val 18) 0x3F))
        (String (enc_encode (N.land (N.shiftr val 12) 0x3F))
          (String (enc_encode (N.land (N.shiftr val 6) 0x3F))
            (String (enc_encode (N.land val 0x3F)) (base64_Encode rest))))
  | String a0 (String a1 EmptyString) =>
      let val := N.lor (N.shiftl (byte_of a0) 16) (N.shiftl (byte_of a1) 8) in
      String (enc_encode (N.land (N.shiftr val 18) 0x3F))
        (String (enc_encode (N.land (N.shiftr val 12) 0x3F))
          (String (enc_encode (N.land (N.shiftr val 6) 0x3F))
            (String StdPadding "")))
  | String a0 EmptyString =>
      let val := N.shiftl (byte_of a0) 16 in
      String (enc_encode (N.land (N.shiftr val 18) 0x3F))
        (String (enc_encode (N.land (N.shiftr val 12) 0x3F))
          (String StdPadding (String StdPadding "")))
  | EmptyString => ""
  end.

Definition base64_URLEncoding_EncodeToString (src : string) : string :=
  base64_Encode src.

Section Manager.

Context (host : Host).

(** ** Daemon calls through the client *)

Definition ImageList (cli : Client) (ctx : Context) (opts : ImageListOptions)
  : M (result string (list ImageSummary)) :=
  emit (EvImageList cli ctx opts) ;;
  ret (client_ImageList host cli ctx opts).

Definition ImagePull (cli : Client) (ctx : Context) (ref : string)
    (opts : ImagePullOptions) : M (result string string) :=
  emit (EvImagePull cli ctx ref opts) ;;
  ret (client_ImagePull host cli ctx ref opts).

Definition client_ContainerCreate_call (cli : Client) (ctx : Context)
    (config : container_Config) (hostConfig : container_HostConfig)
    (networking : ptr NetworkingConfig) (name : string)
  : M (result string string) :=
  emit (EvContainerCreate cli ctx config hostConfig networking name) ;;
  ret (client_ContainerCreate host cli ctx config hostConfig networking name).

(** ** [HasImage] *)

(** The inner loop over [imageInfo.RepoTags]: [true] when it leaves
    through [break OuterLoop]. *)
Fixpoint tags_loop (image : string) (tags : list string) : bool :=
  match tags with
  | [] => false
  | tag :: rest => if String.eqb tag image then true else tags_loop image rest
  end.

(** The outer loop over [images]; the result is [hasImage]. *)
Fixpoint images_loop (image : string) (images : list ImageSummary) : bool :=
  match images with
  | [] => false
  | imageInfo :: rest =>
      if tags_loop image (RepoTags imageInfo) then true
      else images_loop image rest
  end.

(** The string [HasImage] compares the repo tags with (lines 80-82). *)
Definition compared_reference (image : string) : string :=
  if negb (strings_Contains image ":") then image +:+ ":latest" else image.

Definition HasImage (image : string) : M bool :=
  if String.eqb image "" then ret false
  else
    let image := compared_reference image in
    dm <- get_manager ;;
    r <- ImageList (client dm) (context dm) {| All := false |} ;;
    match r with
    | Err err =>
        log_Error "Unable to list images" (client_err err) ;;
        ret false
    | Ok images => ret (images_loop image images)
    end.

(** ** [getAuthConfig] *)

Definition getAuthConfig (registry : string) : M (ptr AuthConfig) :=
  emit EvReadDockerCfg ;;
  match docker_NewAuthConfigurationsFromDockerCfg host with
  | Err _ => ret (addr_of AuthConfig_zero)
  | Ok authConfigurations =>
      match Configs authConfigurations !! registry with
      | None => ret (addr_of AuthConfig_zero)
      | Some authConfiguration =>
          ret (addr_of {| Username := ac_Username authConfiguration;
                          Password := ac_Password authConfiguration;
                          Auth := ""; Email := ""; ServerAddress := "";
                          IdentityToken := ""; RegistryToken := "" |})
      end
  end.

(** ** [PullImage] *)

Definition PullImage (image : string) : M (option error) :=
  match reference_ParseNormalizedNamed host image with
  | Err err =>
      log_Error "Cannot parse image name" (reference_err err) ;;
      ret (Some (reference_err err))
  | Ok named =>
      authConfig <- getAuthConfig (reference_Domain named) ;;
      match json_Marshal (reflect_AuthConfig_ptr authConfig) with
      | Err err =>
          log_Error "Error encoding auth config" (json_err err) ;;
          ret (Some (json_err err))
      | Ok encodedJSON =>
          let authStr := base64_URLEncoding_EncodeToString encodedJSON in
          dm <- get_manager ;;
          r <- ImagePull (client dm) (context dm) image
                 {| RegistryAuth := authStr |} ;;
          match r with
          | Err err =>
              log_Error "Error pulling image" (client_err err) ;;
              ret (Some (client_err err))
          | Ok out =>
              emit (EvStdout out) ;;
              emit EvClose ;;
              ret None
          end
      end
  end.

(** ** [ContainerCreate] *)

(** The loop [for i, m := range config.Mounts] writing [mounts[i]]. *)
Fixpoint mounts_loop (i : nat) (ms : list Mount) (mounts : list mount_Mount)
  : list mount_Mount :=
  match ms with
  | [] => mounts
  | m :: rest =>
      mounts_loop (S i) rest
        (<[i := {| m_Type := TypeBind; m_Source := Source m;
                   m_Target := Target m; m_ReadOnly := ReadOnly m |}]> mounts)
  end.

(** The loop [for key, value := range config.Env] writing [env[i]]. *)
Fixpoint env_loop (i : nat) (kvs : list (string * string)) (env : list string)
  : list string :=
  match kvs with
  | [] => env
  | (key, value) :: rest =>
      env_loop (S i) rest (<[i := key +:+ "=" +:+ value]> env)
  end.

Definition ContainerCreate (config : Config) : M (result error DockerContainer) :=
  emit EvGetwd ;;
  match os_Getwd host with
  | Err err => ret (Err (os_err err))
  | Ok wd =>
      let mounts :=
        mounts_loop 0 (Mounts config)
          (replicate (length (Mounts config)) mount_zero) in
      let env :=
        env_loop 0 (range_map host (Env config))
          (replicate (size (Env config)) "") in
      dm <- get_manager ;;
      r <- client_ContainerCreate_call (client dm) (context dm)
             {| c_Image := Image config;
                c_Entrypoint := ["sh"];
                c_Cmd := ["-c"; Cmd config];
                c_WorkingDir := wd;
                c_Env := env |}
             {| h_Mounts := mounts; h_NetworkMode := "host" |}
             nil_ptr
             "" ;;
      match r with
      | Err err =>
          log_Error "Error creating container" (client_err err) ;;
          ret (Err (client_err err))
      | Ok resp_ID => ret (Ok {| manager := dm; id := resp_ID |})
      end
  end.

(** ** [GetSystemMounts] *)

Definition GetSystemMounts : M (list Mount) :=
  ret [ {| Source := "/var/run/docker.sock";
           Target := "/var/run/docker.sock";
           ReadOnly := false |};
        {| Source := "/root/.docker";
           Target := "/root/.docker";
           ReadOnly := true |} ].

(** ** [NewDockerManager] *)

(** The world right after construction: the new manager object, its
    mutex free, and an empty trace. *)
Definition NewDockerManager : result error World :=
  match client_NewEnvClient host with
  | Err err => Err (client_err err)
  | Ok cli =>
      let ctx := {| ctx_id := 1 |} in
      let cancel := {| cancels := ctx |} in
      let cli := client_NegotiateAPIVersion host cli ctx in
      Ok {| w_manager := {| client := cli; context := ctx;
                            mutex := {| mutex_addr := 0 |}; cancel := cancel |};
            w_locked := false;
            w_trace := [] |}
  end.

End Manager.

(** ** The reference format of the data model *)

Fixpoint before_char (c : ascii) (s : string) : string :=
  match s with
  | EmptyString => ""
  | String a s' => if Ascii.eqb a c then "" else String a (before_char c s')
  end.

Fixpoint after_char (c : ascii) (s : string) : option string :=
  match s with
  | EmptyString => None
  | String a s' => if Ascii.eqb a c then Some s' else after_char c s'
  end.

Fixpoint after_last_char (c : ascii) (s : string) : string :=
  match s with
  | EmptyString => ""
  | String a s' =>
      if Ascii.eqb a c then after_last_char c s'
      else if strings_Contains s' (String c "") then after_last_char c s'
      else s
  end.

(** The explicit tag of a reference, following the specification's words:
    a reference has the shape [registry/repository:tag], so its tag is what
    follows the ':' of its last '/'-separated component, a digest ('@' and
    after) set aside; a ':' inside the registry part is a port. *)
Definition explicit_tag (ref : string) : option string :=
  after_char ":" (after_last_char "/" (before_char "@" ref)).

(** The credentials stored for a registry domain, if the configuration is
    readable and has an entry. *)
Definition stored_credentials (host : Host) (registry : string)
  : option AuthConfiguration :=
  match docker_NewAuthConfigurationsFromDockerCfg host with
  | Err _ => None
  | Ok authConfigurations => Configs authConfigurations !! registry
  end.

(** The bind mount a mount specification stands for. *)
Definition bind_mount (m : Mount) : mount_Mount :=
  {| m_Type := TypeBind; m_Source := Source m; m_Target := Target m;
     m_ReadOnly := ReadOnly m |}.

(** The fields of a struct are all strings. *)
Fixpoint string_fields (fs : go_fields) : Prop :=
  match fs with
  | FNil => True
  | FCons _ _ v rest => (exists s, v = VString s) /\ string_fields rest
  end.

(** The environment entry written for a key and its value. *)
Definition env_entry (kv : string * string) : string :=
  fst kv +:+ "=" +:+ snd kv.

(** ** The frame of a method *)

(** The world after a method compared with the world before: the four
    fields of the manager are the same, the mutex is in the same state and
    no event of the method acquires it. *)
Definition manager_untouched (w w' : World) : Prop :=
  client (w_manager w') = client (w_manager w)
  /\ context (w_manager w') = context (w_manager w)
  /\ mutex (w_manager w') = mutex (w_manager w)
  /\ cancel (w_manager w') = cancel (w_manager w)
  /\ w_locked w' = w_locked w
  /\ Forall (fun e => is_lock e = false)
       (drop (length (w_trace w)) (w_trace w')).

(** A computation that only appends events other than [EvLock]. *)
Definition frame {A : Type} (c : M A) : Prop :=
  forall w,
    w_manager (snd (c w)) = w_manager w
    /\ w_locked (snd (c w)) = w_locked w
    /\ exists evs, w_trace (snd (c w)) = w_trace w ++ evs
                   /\ Forall (fun e => is_lock e = false) evs.

(** ** Example hosts *)

Module Examples.

(** [splitDockerDomain] of the reference package. *)
Definition splitDockerDomain (name : string) : string * string :=
  let head := before_char "/" name in
  let split :=
    match after_char "/" name with
    | None => ("docker.io", name)
    | Some tail =>
        if negb (strings_Contains head "." || strings_Contains head ":")
           && negb (String.eqb head "localhost")
        then ("docker.io", name)
        else (head, tail)
    end in
  let domain := if String.eqb (fst split) "index.docker.io" then "docker.io"
                else fst split in
  let remainder := snd split in
  if String.eqb domain "docker.io" && negb (strings_Contains remainder "/")
  then (domain, "library/" +:+ remainder)
  else (domain, remainder).

Definition name_byte (a : ascii) : bool :=
  let b := byte_of a in
  ((0x61 <=? b)%N && (b <=? 0x7A)%N) || ((0x30 <=? b)%N && (b <=? 0x39)%N)
  || (b =? 0x2E)%N || (b =? 0x5F)%N || (b =? 0x2D)%N || (b =? 0x2F)%N.

Definition upper_byte (a : ascii) : bool :=
  let b := byte_of a in (0x41 <=? b)%N && (b <=? 0x5A)%N.

Fixpoint string_forallb (f : ascii -> bool) (s : string) : bool :=
  match s with
  | EmptyString => true
  | String a s' => f a && string_forallb f s'
  end.

(** A parser for the hosts below: it splits the domain as the reference
    package does and accepts the repository names made of lower-case
    letters, digits and separators. *)
Definition parse (s : string) : result reference_error Named :=
  let (domain, remainder) := splitDockerDomain s in
  let remoteName := before_char ":" (before_char "@" remainder) in
  if negb (string_forallb (fun a => negb (upper_byte a)) remoteName)
  then Err ErrNameContainsUppercase
  else if String.eqb remoteName "" then Err ErrNameEmpty
  else if negb (string_forallb name_byte remoteName)
  then Err ErrReferenceInvalidFormat
  else Ok {| named_domain := domain; named_path := remoteName;
             named_tag := after_char ":" (before_char "@" remainder);
             named_digest := after_char "@" remainder |}.

Definition images : list ImageSummary :=
  [ {| ID := "sha256:a1"; RepoTags := ["alpine:latest"; "alpine:3.9"] |};
    {| ID := "sha256:b2"; RepoTags := ["localhost:5000/alpine:latest"] |};
    {| ID := "sha256:c3"; RepoTags := [] |} ].

Definition credentials : AuthConfigurations :=
  {| Configs :=
       {[ "registry.example.com" :=
            {| ac_Username := "bob"; ac_Password := "secret";
               ac_Email := "bob@example.com";
               ac_ServerAddress := "registry.example.com";
               ac_IdentityToken := "idtoken"; ac_RegistryToken := "" |} ]} |}.

Definition make_host
    (cfg : result string AuthConfigurations)
    (wd : result string string)
    (list : result string (list ImageSummary)) : Host :=
  {| reference_ParseNormalizedNamed := parse;
     docker_NewAuthConfigurationsFromDockerCfg := cfg;
     os_Getwd := wd;
     client_NewEnvClient :=
       Ok {| client_host := "unix:///var/run/docker.sock"; client_version := "" |};
     client_ImageList := fun _ _ _ => list;
     client_ImagePull := fun _ _ _ _ => Ok "{}";
     client_ContainerCreate := fun _ _ _ _ _ _ => Ok "0123456789ab";
     client_NegotiateAPIVersion := fun cli _ =>
       {| client_host := client_host cli; client_version := "1.39" |};
     range_map := map_to_list;
     range_map_perm := fun m => reflexivity (map_to_list m) |}.

(** A healthy host, a host whose daemon cannot list images and a host
    whose credential configuration cannot be read. *)
Definition healthy : Host := make_host (Ok credentials) (Ok "/work") (Ok images).
Definition no_listing : Host :=
  make_host (Ok credentials) (Ok "/work") (Err "daemon unreachable").
Definition no_credentials : Host :=
  make_host (Err "open config.json: no such file") (Ok "/work") (Ok images).

Definition world : World :=
  {| w_manager :=
       {| client := {| client_host := "unix:///var/run/docker.sock";
                       client_version := "1.39" |};
          context := {| ctx_id := 1 |};
          mutex := {| mutex_addr := 0 |};
          cancel := {| cancels := {| ctx_id := 1 |} |} |};
     w_locked := false;
     w_trace := [] |}.

Definition two_mounts : Config :=
  {| Image := "alpine"; Cmd := "echo hi | tee /a/out; ls > /dev/null";
     Env := {[ "X" := "1" ]};
     Mounts := [ {| Source := "/tmp/a"; Target := "/a"; ReadOnly := true |};
                 {| Source := "/tmp/b"; Target := "/b"; ReadOnly := false |} ] |}.

(** The configuration of the end-to-end scenario. *)
Definition scenario : Config :=
  {| Image := "alpine"; Cmd := "echo hi"; Env := {[ "X" := "1" ]};
     Mounts := [ {| Source := "/tmp/a"; Target := "/a"; ReadOnly := false |} ] |}.

End Examples.

(** ** Hosts that fail *)

Module Failures.

(** A host like [h] but for the working directory and for what the daemon
    answers to a pull and to a create call. *)
Definition with_answers (h : Host) (wd pull create : result string string) : Host :=
  {| reference_ParseNormalizedNamed := reference_ParseNormalizedNamed h;
     docker_NewAuthConfigurationsFromDockerCfg :=
       docker_NewAuthConfigurationsFromDockerCfg h;
     os_Getwd := wd;
     client_NewEnvClient := client_NewEnvClient h;
     client_ImageList := client_ImageList h;
     client_ImagePull := fun _ _ _ _ => pull;
     client_ContainerCreate := fun _ _ _ _ _ _ => create;
     client_NegotiateAPIVersion := client_NegotiateAPIVersion h;
     range_map := range_map h;
     range_map_perm := range_map_perm h |}.

Definition pull_refused : Host :=
  with_answers Examples.healthy (Ok "/work") (Err "pull access denied")
    (Ok "0123456789ab").

Definition create_refused : Host :=
  with_answers Examples.healthy (Ok "/work") (Ok "{}") (Err "No such image: alpine").

Definition no_wd : Host :=
  with_answers Examples.healthy (Err "getwd: no such file or directory")
    (Ok "{}") (Ok "0123456789ab").

(** A host whose stored entry differs from that of [Examples.healthy] in
    everything but the username and the password. *)
Definition other_tokens : Host :=
  Examples.make_host
    (Ok {| Configs :=
             {[ "registry.example.com" :=
                  {| ac_Username := "bob"; ac_Password := "secret";
                     ac_Email := ""; ac_ServerAddress := "";
                     ac_IdentityToken := ""; ac_RegistryToken := "bearer" |} ]} |})
    (Ok "/work") (Ok Examples.images).

(** The images of [Examples.images] listed in another order. *)
Definition reordered : Host :=
  Examples.make_host (Ok Examples.credentials) (Ok "/work")
    (Ok (reverse Examples.images)).

Definition no_client : Host :=
  {| reference_ParseNormalizedNamed := Examples.parse;
     docker_NewAuthConfigurationsFromDockerCfg := Ok Examples.credentials;
     os_Getwd := Ok "/work";
     client_NewEnvClient := Err "unable to parse docker host";
     client_ImageList := fun _ _ _ => Ok Examples.images;
     client_ImagePull := fun _ _ _ _ => Ok "{}";
     client_ContainerCreate := fun _ _ _ _ _ _ => Ok "0123456789ab";
     client_NegotiateAPIVersion := fun cli _ => cli;
     range_map := map_to_list;
     range_map_perm := fun m => reflexivity (map_to_list m) |}.

End Failures.

(** ** Shapes of strings and calls *)

(** The bytes of the URL-safe base64 alphabet, and the padding byte. *)
Definition url_safe_byte (a : ascii) : bool :=
  let b := byte_of a in
  ((0x41 <=? b)%N && (b <=? 0x5A)%N) || ((0x61 <=? b)%N && (b <=? 0x7A)%N)
  || ((0x30 <=? b)%N && (b <=? 0x39)%N) || (b =? 0x2D)%N || (b =? 0x5F)%N
  || (b =? 0x3D)%N.

Definition url_safe (s : string) : bool :=
  forallb url_safe_byte (list_ascii_of_string s).

Definition is_close (e : Event) : bool :=
  match e with EvClose => true | _ => false end.

(** A string of bytes that the JSON encoder writes as they are. *)
Definition plain (s : string) : bool :=
  forallb (fun a => htmlSafeSet (byte_of a)) (list_ascii_of_string s).

(** A string between double quotes. *)
Definition quoted (s : string) : string :=
  String dquote s +:+ String dquote "".

(** The JSON object with the two members [username] and [password]. *)
Definition credentials_json (username password : string) : string :=
  "{" +:+ quoted "username" +:+ ":" +:+ quoted username +:+ ","
  +:+ quoted "password" +:+ ":" +:+ quoted password +:+ "}".

(** The client and the context a daemon call goes through. *)
Definition call_handle (e : Event) : option (Client * Context) :=
  match e with
  | EvImageList cli ctx _ | EvImagePull cli ctx _ _
  | EvContainerCreate cli ctx _ _ _ _ => Some (cli, ctx)
  | _ => None
  end.

(** The credential object [getAuthConfig] builds from what is stored. *)
Definition credentials_of (stored : option AuthConfiguration) : AuthConfig :=
  match stored with
  | None => AuthConfig_zero
  | Some authConfiguration =>
      {| Username := ac_Username authConfiguration;
         Password := ac_Password authConfiguration;
         Auth := ""; Email := ""; ServerAddress := "";
         IdentityToken := ""; RegistryToken := "" |}
  end.

(** A daemon call goes through the client and the context of [dm]. *)
Definition through_manager (dm : DockerManager) (e : Event) : Prop :=
  match call_handle e with
  | Some handle => handle = (client dm, context dm)
  | None => True
  end.

(** ** Programs over the manager *)

(** A caller of the manager: any sequence of calls of its four methods,
    the results dropped. *)
Inductive Operation : Type :=
| OpPullImage (image : string)
| OpHasImage (image : string)
| OpContainerCreate (config : Config)
| OpGetSystemMounts.

Definition run_operation (host : Host) (op : Operation) : M unit :=
  match op with
  | OpPullImage image => bind (PullImage host image) (fun _ => ret tt)
  | OpHasImage image => bind (HasImage host image) (fun _ => ret tt)
  | OpContainerCreate config => bind (ContainerCreate host config) (fun _ => ret tt)
  | OpGetSystemMounts => bind GetSystemMounts (fun _ => ret tt)
  end.

Fixpoint run_operations (host : Host) (ops : list Operation) : M unit :=
  match ops with
  | [] => ret tt
  | op :: rest => bind (run_operation host op) (fun _ => run_operations host rest)
  end.

(** * Properties *)

(** Running a method: the monad's operations are unfolded and the world
    record is computed. *)
Ltac run_manager :=
  unfold bind, get_manager, ImageList, ImagePull, client_ContainerCreate_call,
    log_Error, emit, ret;
  cbn.

(** An event that differs from every event of an explicit trace is not
    in it. *)
Ltac absent_from_trace H :=
  repeat (apply elem_of_cons in H as [H|H]; [ discriminate H | ]);
  inversion H.

(** ** Traces *)

Lemma new_events_ext {A : Type} (c : M A) (w : World) (evs : list Event) :
  w_trace (snd (c w)) = w_trace w ++ evs -> new_events c w = evs.
Proof.
  intros Hext. unfold new_events. rewrite Hext. apply drop_app_length.
Qed.

Lemma new_events_same {A : Type} (c : M A) (w : World) :
  snd (c w) = w -> new_events c w = [].
Proof.
  intros Hsame. apply new_events_ext. rewrite Hsame. symmetry. apply app_nil_r.
Qed.

(** ** [strings.Contains] on a one-byte pattern *)

Lemma HasPrefix_empty (s : string) : strings_HasPrefix s "" = true.
Proof. destruct s; reflexivity. Qed.

Lemma Contains_char_cons (a c : ascii) (s : string) :
  strings_Contains (String a s) (String c "")
  = Ascii.eqb c a || strings_Contains s (String c "").
Proof.
  simpl. destruct (Ascii.eqb c a); [ now rewrite HasPrefix_empty | reflexivity ].
Qed.

Lemma Contains_char_empty (c : ascii) : strings_Contains "" (String c "") = false.
Proof. reflexivity. Qed.

Lemma after_char_Contains (c : ascii) (s t : string) :
  after_char c s = Some t -> strings_Contains s (String c "") = true.
Proof.
  induction s as [|a s IH]; intros Hafter; [ discriminate | ].
  rewrite Contains_char_cons. cbn [after_char] in Hafter.
  rewrite Ascii.eqb_sym. destruct (Ascii.eqb a c); [ reflexivity | ].
  simpl. now apply IH.
Qed.

Lemma after_last_char_Contains (c d : ascii) (s : string) :
  strings_Contains (after_last_char d s) (String c "") = true ->
  strings_Contains s (String c "") = true.
Proof.
  induction s as [|a s IH]; [ easy | ].
  cbn [after_last_char]. rewrite (Contains_char_cons a c s).
  destruct (Ascii.eqb a d).
  - intros Hc. rewrite (IH Hc). apply orb_true_r.
  - destruct (strings_Contains s (String d "")).
    + intros Hc. rewrite (IH Hc). apply orb_true_r.
    + now rewrite Contains_char_cons.
Qed.

Lemma before_char_Contains (c d : ascii) (s : string) :
  strings_Contains (before_char d s) (String c "") = true ->
  strings_Contains s (String c "") = true.
Proof.
  induction s as [|a s IH]; [ easy | ].
  cbn [before_char]. rewrite (Contains_char_cons a c s).
  destruct (Ascii.eqb a d); [ discriminate | ].
  rewrite Contains_char_cons. intros [->|Hc]%orb_true_iff; [ reflexivity | ].
  rewrite (IH Hc). apply orb_true_r.
Qed.

(** A reference with an explicit tag contains a colon. *)
Lemma explicit_tag_Contains (ref tag : string) :
  explicit_tag ref = Some tag -> strings_Contains ref ":" = true.
Proof.
  unfold explicit_tag. intros Htag.
  apply (before_char_Contains _ "@"), (after_last_char_Contains _ "/").
  exact (after_char_Contains _ _ _ Htag).
Qed.

(** ** [HasImage] *)

Lemma tags_loop_elem (image : string) (tags : list string) :
  tags_loop image tags = true <-> image ∈ tags.
Proof.
  induction tags as [|tag rest IH]; simpl.
  - split; [ discriminate | intros Hin; inversion Hin ].
  - rewrite elem_of_cons. destruct (String.eqb tag image) eqn:Heq.
    + apply String.eqb_eq in Heq. subst. tauto.
    + apply String.eqb_neq in Heq. rewrite IH. split; [ tauto | ].
      intros [->|Hin]; [ contradiction | exact Hin ].
Qed.

(** The two loops find the reference exactly when one of the listed
    images carries it among its repo tags. *)
Lemma images_loop_elem (image : string) (images : list ImageSummary) :
  images_loop image images = true
  <-> exists imageInfo, imageInfo ∈ images /\ image ∈ RepoTags imageInfo.
Proof.
  induction images as [|info rest IH]; simpl.
  - split; [ discriminate | intros (i & Hin & _); inversion Hin ].
  - destruct (tags_loop image (RepoTags info)) eqn:Htags.
    + apply tags_loop_elem in Htags. split; [ | reflexivity ].
      intros _. exists info. split; [ apply elem_of_cons; now left | exact Htags ].
    + rewrite IH. split.
      * intros (i & Hin & Htag). exists i. split; [ apply elem_of_cons; now right | exact Htag ].
      * intros (i & Hin & Htag). apply elem_of_cons in Hin as [->|Hin].
        -- apply tags_loop_elem in Htag. congruence.
        -- exists i. now split.
Qed.

(** What [HasImage] does on a non-empty reference. *)
Lemma HasImage_nonempty (host : Host) (image : string) (w : World) :
  image <> "" ->
  let dm := w_manager w in
  let call := EvImageList (client dm) (context dm) {| All := false |} in
  match client_ImageList host (client dm) (context dm) {| All := false |} with
  | Ok images =>
      fst (HasImage host image w) = images_loop (compared_reference image) images
      /\ new_events (HasImage host image) w = [call]
  | Err err =>
      fst (HasImage host image w) = false
      /\ new_events (HasImage host image) w
         = [call; EvLogError "Unable to list images" (client_err err)]
  end.
Proof.
  intros Hne dm call. subst dm call.
  apply String.eqb_neq in Hne.
  destruct (client_ImageList host (client (w_manager w)) (context (w_manager w))
              {| All := false |}) as [images|err] eqn:Hlist;
    (split; [ | apply new_events_ext ]);
    unfold HasImage; rewrite Hne; run_manager; rewrite Hlist; cbn;
    try reflexivity.
  now rewrite <- app_assoc.
Qed.

(** A reference without any colon is compared with [:latest] appended, a
    reference with a colon as it is. *)
Lemma compared_reference_no_colon (image : string) :
  strings_Contains image ":" = false ->
  compared_reference image = image +:+ ":latest".
Proof. intros Hc. unfold compared_reference. now rewrite Hc. Qed.

Lemma compared_reference_colon (image : string) :
  strings_Contains image ":" = true -> compared_reference image = image.
Proof. intros Hc. unfold compared_reference. now rewrite Hc. Qed.

Lemma compared_reference_tagged (image tag : string) :
  explicit_tag image = Some tag -> compared_reference image = image.
Proof.
  intros Htag. apply compared_reference_colon. exact (explicit_tag_Contains _ _ Htag).
Qed.

(** On a daemon that lists its images, a non-empty reference without a
    colon is present exactly when some image carries it with [:latest]
    appended, and a reference with an explicit tag exactly when some
    image carries it as it is. *)
Lemma HasImage_untagged (host : Host) (image : string) (w : World)
    (images : list ImageSummary) :
  image <> "" ->
  strings_Contains image ":" = false ->
  client_ImageList host (client (w_manager w)) (context (w_manager w))
    {| All := false |} = Ok images ->
  fst (HasImage host image w) = true
  <-> exists imageInfo,
        imageInfo ∈ images /\ image +:+ ":latest" ∈ RepoTags imageInfo.
Proof.
  intros Hne Hcolon Hlist.
  pose proof (HasImage_nonempty host image w Hne) as Hrun. cbn zeta in Hrun.
  rewrite Hlist in Hrun. destruct Hrun as [-> _].
  rewrite (compared_reference_no_colon _ Hcolon). apply images_loop_elem.
Qed.

Lemma HasImage_tagged (host : Host) (image tag : string) (w : World)
    (images : list ImageSummary) :
  explicit_tag image = Some tag ->
  client_ImageList host (client (w_manager w)) (context (w_manager w))
    {| All := false |} = Ok images ->
  fst (HasImage host image w) = true
  <-> exists imageInfo, imageInfo ∈ images /\ image ∈ RepoTags imageInfo.
Proof.
  intros Htag Hlist.
  assert (Hne : image <> "") by (intros ->; discriminate Htag).
  pose proof (HasImage_nonempty host image w Hne) as Hrun. cbn zeta in Hrun.
  rewrite Hlist in Hrun. destruct Hrun as [-> _].
  rewrite (compared_reference_tagged _ _ Htag). apply images_loop_elem.
Qed.

Example HasImage_alpine :
  fst (HasImage Examples.healthy "alpine" Examples.world) = true
  /\ fst (HasImage Examples.healthy "alpine:3.9" Examples.world) = true
  /\ fst (HasImage Examples.healthy "alpine:3.8" Examples.world) = false.
Proof. repeat split. Qed.

(** C1, at the reference [localhost:5000/alpine]: it has no explicit tag
    (its only colon introduces the registry port), yet [HasImage] compares
    the repo tags with the reference unchanged instead of with
    [localhost:5000/alpine:latest]; on a daemon that does hold
    [localhost:5000/alpine:latest] it answers that the image is absent. *)
Theorem HasImage_port_reference_unchanged :
  explicit_tag "localhost:5000/alpine" = None
  /\ compared_reference "localhost:5000/alpine" = "localhost:5000/alpine"
  /\ compared_reference "localhost:5000/alpine"
     <> "localhost:5000/alpine" +:+ ":latest"
  /\ images_loop ("localhost:5000/alpine" +:+ ":latest") Examples.images = true
  /\ fst (HasImage Examples.healthy "localhost:5000/alpine" Examples.world) = false.
Proof.
  repeat split; try reflexivity. discriminate.
Qed.

(** C2: [HasImage] returns a plain boolean, and when the daemon's image
    listing fails the boolean is [false], for every reference. *)
Theorem HasImage_listing_failure (host : Host) (image : string) (w : World)
    (err : string) :
  client_ImageList host (client (w_manager w)) (context (w_manager w))
    {| All := false |} = Err err ->
  fst (HasImage host image w) = false.
Proof.
  intros Hlist. destruct (String.eqb_spec image "") as [->|Hne]; [ reflexivity | ].
  pose proof (HasImage_nonempty host image w Hne) as Hrun. cbn zeta in Hrun.
  rewrite Hlist in Hrun. exact (proj1 Hrun).
Qed.

Lemma HasImage_listing_failure_witness :
  client_ImageList Examples.no_listing
    (client (w_manager Examples.world)) (context (w_manager Examples.world))
    {| All := false |} = Err "daemon unreachable"
  /\ fst (HasImage Examples.no_listing "alpine" Examples.world) = false.
Proof.
  split; [ reflexivity | ].
  apply (HasImage_listing_failure Examples.no_listing "alpine" Examples.world
           "daemon unreachable").
  reflexivity.
Defined.

(** C3: on the empty string [HasImage] answers [false] and leaves the
    world as it found it: no event is added to the trace, so no call
    reaches the daemon. *)
Theorem HasImage_empty (host : Host) (w : World) :
  HasImage host "" w = (false, w)
  /\ new_events (HasImage host "") w = []
  /\ new_daemon_calls (HasImage host "") w = [].
Proof.
  assert (Hrun : HasImage host "" w = (false, w)) by reflexivity.
  assert (Hnone : new_events (HasImage host "") w = []).
  { apply new_events_same. now rewrite Hrun. }
  repeat split; [ exact Hnone | ].
  unfold new_daemon_calls. now rewrite Hnone.
Qed.

(** ** [json.Marshal] on structs of strings *)

Lemma marshal_string_fields (fs : go_fields) (first : bool) :
  string_fields fs -> exists body, marshal_fields fs first = Ok body.
Proof.
  revert first. induction fs as [|name omitempty v rest IH]; intros first Hfs.
  - now exists "}".
  - destruct Hfs as [[s ->] Hrest]. cbn [marshal_fields marshal_value].
    destruct (omitempty && isEmptyValue (VString s)).
    + exact (IH first Hrest).
    + destruct (IH false Hrest) as [tail ->]. eauto.
Qed.

(** Marshalling a [types.AuthConfig], or a pointer to one, cannot fail. *)
Lemma json_Marshal_AuthConfig (p : ptr AuthConfig) :
  exists encodedJSON, json_Marshal (reflect_AuthConfig_ptr p) = Ok encodedJSON.
Proof.
  destruct p as [a|]; [ | now exists "null" ].
  unfold json_Marshal, reflect_AuthConfig_ptr, reflect_AuthConfig.
  cbn [marshal_value].
  match goal with
  | |- context [marshal_fields ?fs true] =>
      destruct (marshal_string_fields fs true) as [body ->]
  end.
  - cbn [string_fields]. repeat split; eauto.
  - eauto.
Qed.

Lemma json_Marshal_AuthConfig_zero :
  json_Marshal (reflect_AuthConfig_ptr (addr_of AuthConfig_zero)) = Ok "{}".
Proof. reflexivity. Qed.

(** ** [getAuthConfig] *)

Lemma getAuthConfig_run (host : Host) (registry : string) (w : World) :
  getAuthConfig host registry w
  = (addr_of
       match stored_credentials host registry with
       | None => AuthConfig_zero
       | Some authConfiguration =>
           {| Username := ac_Username authConfiguration;
              Password := ac_Password authConfiguration;
              Auth := ""; Email := ""; ServerAddress := "";
              IdentityToken := ""; RegistryToken := "" |}
       end,
     {| w_manager := w_manager w; w_locked := w_locked w;
        w_trace := w_trace w ++ [EvReadDockerCfg] |}).
Proof.
  unfold getAuthConfig, stored_credentials. run_manager.
  destruct (docker_NewAuthConfigurationsFromDockerCfg host) as [acs|err];
    [ | reflexivity ].
  now destruct (Configs acs !! registry).
Qed.

(** ** [PullImage] *)

(** What [PullImage] does once the reference has parsed: the credentials
    are read and marshalled, and one pull call is issued. *)
Lemma PullImage_parsed (host : Host) (image : string) (named : Named) (w : World) :
  reference_ParseNormalizedNamed host image = Ok named ->
  let dm := w_manager w in
  let authConfig := fst (getAuthConfig host (reference_Domain named) w) in
  exists encodedJSON,
    json_Marshal (reflect_AuthConfig_ptr authConfig) = Ok encodedJSON
    /\ let opts := {| RegistryAuth := base64_URLEncoding_EncodeToString encodedJSON |} in
       let call := EvImagePull (client dm) (context dm) image opts in
       match client_ImagePull host (client dm) (context dm) image opts with
       | Ok out =>
           fst (PullImage host image w) = None
           /\ new_events (PullImage host image) w
              = [EvReadDockerCfg; call; EvStdout out; EvClose]
       | Err err =>
           fst (PullImage host image w) = Some (client_err err)
           /\ new_events (PullImage host image) w
              = [EvReadDockerCfg; call;
                 EvLogError "Error pulling image" (client_err err)]
       end.
Proof.
  intros Hparse dm authConfig. subst dm authConfig.
  rewrite getAuthConfig_run. cbn [fst].
  set (authConfig := addr_of _).
  destruct (json_Marshal_AuthConfig authConfig) as [encodedJSON Hjson].
  exists encodedJSON. split; [ exact Hjson | ]. cbn zeta.
  destruct (client_ImagePull host _ _ image _) as [out|err] eqn:Hpull;
    (split; [ | apply new_events_ext ]);
    unfold PullImage; rewrite Hparse;
    unfold bind at 1; rewrite getAuthConfig_run; fold authConfig;
    rewrite Hjson; run_manager; rewrite Hpull; cbn;
    try reflexivity; now rewrite <- !app_assoc.
Qed.

(** What [PullImage] does when the reference does not parse. *)
Lemma PullImage_unparsed (host : Host) (image : string) (w : World)
    (err : reference_error) :
  reference_ParseNormalizedNamed host image = Err err ->
  fst (PullImage host image w) = Some (reference_err err)
  /\ new_events (PullImage host image) w
     = [EvLogError "Cannot parse image name" (reference_err err)].
Proof.
  intros Hparse. split; [ | apply new_events_ext ];
    unfold PullImage; rewrite Hparse; now run_manager.
Qed.

(** C4: when the reference does not parse as a normalized named
    reference, [PullImage] returns the parser's error, a
    [ReferenceParseError]; the only event is the log line, so no pull call
    (and no other call) reaches the daemon. *)
Theorem PullImage_unparseable (host : Host) (image : string) (w : World)
    (err : reference_error) :
  reference_ParseNormalizedNamed host image = Err err ->
  fst (PullImage host image w) = Some (reference_err err)
  /\ is_ReferenceParseError (reference_err err) = true
  /\ new_events (PullImage host image) w
     = [EvLogError "Cannot parse image name" (reference_err err)]
  /\ filter (fun e => is_pull_call e = true) (new_events (PullImage host image) w) = []
  /\ new_daemon_calls (PullImage host image) w = [].
Proof.
  intros Hparse.
  destruct (PullImage_unparsed host image w err Hparse) as [Hret Hevents].
  split; [ exact Hret | ]. split; [ reflexivity | ]. split; [ exact Hevents | ].
  unfold new_daemon_calls. rewrite Hevents. now split.
Qed.

Lemma PullImage_unparseable_witness :
  reference_ParseNormalizedNamed Examples.healthy "Alpine"
  = Err ErrNameContainsUppercase
  /\ fst (PullImage Examples.healthy "Alpine" Examples.world)
     = Some (reference_err ErrNameContainsUppercase)
  /\ new_daemon_calls (PullImage Examples.healthy "Alpine") Examples.world = [].
Proof.
  split; [ reflexivity | ].
  destruct (PullImage_unparseable Examples.healthy "Alpine" Examples.world
              ErrNameContainsUppercase eq_refl) as (Hret & _ & _ & _ & Hcalls).
  exact (conj Hret Hcalls).
Defined.

(** C5: when the reference parses and its registry domain has no stored
    credentials (no entry, or a configuration that cannot be read),
    [PullImage] still issues exactly one pull call; the call carries the
    reference string as the caller gave it, and as auth blob the
    URL-safe base64 encoding [e30=] of [{}], the JSON of the empty
    credential object. *)
Theorem PullImage_anonymous (host : Host) (image : string) (named : Named)
    (w : World) :
  reference_ParseNormalizedNamed host image = Ok named ->
  stored_credentials host (reference_Domain named) = None ->
  let dm := w_manager w in
  new_daemon_calls (PullImage host image) w
  = [EvImagePull (client dm) (context dm) image {| RegistryAuth := "e30=" |}]
  /\ json_Marshal (reflect_AuthConfig_ptr (addr_of AuthConfig_zero)) = Ok "{}"
  /\ base64_URLEncoding_EncodeToString "{}" = "e30="
  /\ "e30=" <> "".
Proof.
  intros Hparse Hnone dm. subst dm.
  split; [ | repeat split; discriminate ].
  destruct (PullImage_parsed host image named w Hparse) as (encodedJSON & Hjson & Hrun).
  rewrite getAuthConfig_run in Hjson. cbn [fst] in Hjson. rewrite Hnone in Hjson.
  rewrite json_Marshal_AuthConfig_zero in Hjson. injection Hjson as <-.
  cbn zeta in Hrun. unfold new_daemon_calls.
  destruct (client_ImagePull host _ _ image _) as [out|err];
    destruct Hrun as [_ ->]; reflexivity.
Qed.

Lemma PullImage_anonymous_witness :
  new_daemon_calls (PullImage Examples.no_credentials "localhost:5000/alpine")
    Examples.world
  = [EvImagePull (client (w_manager Examples.world))
       (context (w_manager Examples.world)) "localhost:5000/alpine"
       {| RegistryAuth := "e30=" |}].
Proof.
  refine (proj1 (PullImage_anonymous Examples.no_credentials "localhost:5000/alpine"
                   {| named_domain := "localhost:5000"; named_path := "alpine";
                      named_tag := None; named_digest := None |}
                   Examples.world _ _)); reflexivity.
Defined.

(** C9: for every registry domain [getAuthConfig] returns a non-nil
    pointer to a credential object in which at most the username and the
    password are set, every other field being the empty string; so
    marshalling it to JSON succeeds, and [PullImage] never returns (nor
    logs) a marshalling error. *)
Theorem getAuthConfig_marshals (host : Host) (registry : string) (w : World) :
  (exists username password,
      fst (getAuthConfig host registry w)
      = addr_of {| Username := username; Password := password;
                   Auth := ""; Email := ""; ServerAddress := "";
                   IdentityToken := ""; RegistryToken := "" |})
  /\ fst (getAuthConfig host registry w) <> nil_ptr
  /\ (exists encodedJSON,
         json_Marshal (reflect_AuthConfig_ptr (fst (getAuthConfig host registry w)))
         = Ok encodedJSON)
  /\ (forall image err,
         fst (PullImage host image w) <> Some (json_err err)
         /\ EvLogError "Error encoding auth config" (json_err err)
            ∉ new_events (PullImage host image) w).
Proof.
  split; [ | split; [ | split ] ].
  - rewrite getAuthConfig_run. cbn [fst].
    destruct (stored_credentials host registry); eauto.
  - rewrite getAuthConfig_run. discriminate.
  - apply json_Marshal_AuthConfig.
  - intros image err.
    destruct (reference_ParseNormalizedNamed host image) as [named|perr] eqn:Hparse.
    + destruct (PullImage_parsed host image named w Hparse) as (enc & _ & Hrun).
      cbn zeta in Hrun.
      destruct (client_ImagePull host _ _ image _) as [out|perr];
        destruct Hrun as [-> ->]; (split; [ discriminate | ]);
        intros Hin; absent_from_trace Hin.
    + destruct (PullImage_unparsed host image w perr Hparse) as [-> ->].
      split; [ discriminate | ].
      intros Hin. absent_from_trace Hin.
Qed.

(** ** [ContainerCreate] *)

(** Without a working directory nothing is built and nothing is sent. *)
Lemma ContainerCreate_no_wd (host : Host) (config : Config) (w : World)
    (err : string) :
  os_Getwd host = Err err ->
  fst (ContainerCreate host config w) = Err (os_err err)
  /\ new_events (ContainerCreate host config) w = [EvGetwd].
Proof.
  intros Hwd. split; [ | apply new_events_ext ];
    unfold ContainerCreate; run_manager; now rewrite Hwd.
Qed.

Lemma mounts_loop_app (ms : list Mount) (pre post : list mount_Mount) :
  length post = length ms ->
  mounts_loop (length pre) ms (pre ++ post) = pre ++ map bind_mount ms.
Proof.
  revert pre post. induction ms as [|m ms IH]; intros pre post Hlen.
  - destruct post; [ reflexivity | discriminate ].
  - destruct post as [|p post]; [ discriminate | ].
    cbn [mounts_loop map]. injection Hlen as Hlen.
    rewrite insert_app_r_alt by lia. rewrite Nat.sub_diag. cbn [insert list_insert].
    fold (bind_mount m). rewrite !(cons_middle (bind_mount m)), !app_assoc.
    replace (S (length pre)) with (length (pre ++ [bind_mount m]))
      by (rewrite length_app; simpl; lia).
    exact (IH _ _ Hlen).
Qed.

(** The mount loop is the element-wise translation of the mount list. *)
Lemma mounts_loop_map (ms : list Mount) :
  mounts_loop 0 ms (replicate (length ms) mount_zero) = map bind_mount ms.
Proof.
  apply (mounts_loop_app ms [] (replicate (length ms) mount_zero)).
  apply length_replicate.
Qed.

Lemma env_loop_app (kvs : list (string * string)) (pre post : list string) :
  length post = length kvs ->
  env_loop (length pre) kvs (pre ++ post) = pre ++ map env_entry kvs.
Proof.
  revert pre post. induction kvs as [|[key value] kvs IH]; intros pre post Hlen.
  - destruct post; [ reflexivity | discriminate ].
  - destruct post as [|p post]; [ discriminate | ].
    cbn [env_loop map]. injection Hlen as Hlen.
    rewrite insert_app_r_alt by lia. rewrite Nat.sub_diag. cbn [insert list_insert].
    change (key +:+ "=" +:+ value) with (env_entry (key, value)).
    rewrite !(cons_middle (env_entry (key, value))), !app_assoc.
    replace (S (length pre)) with (length (pre ++ [env_entry (key, value)]))
      by (rewrite length_app; simpl; lia).
    exact (IH _ _ Hlen).
Qed.

(** The environment loop writes one [KEY=VALUE] entry per map entry, in
    the order the map is visited. *)
Lemma env_loop_map (host : Host) (env : gmap string string) :
  env_loop 0 (range_map host env) (replicate (size env) "")
  = map env_entry (range_map host env).
Proof.
  apply (env_loop_app (range_map host env) [] (replicate (size env) "")).
  rewrite length_replicate, (range_map_perm host env).
  symmetry. apply length_map_to_list.
Qed.

(** What [ContainerCreate] does once the working directory is known. *)
Lemma ContainerCreate_run (host : Host) (config : Config) (w : World) (wd : string) :
  os_Getwd host = Ok wd ->
  let dm := w_manager w in
  let cc := {| c_Image := Image config; c_Entrypoint := ["sh"];
               c_Cmd := ["-c"; Cmd config]; c_WorkingDir := wd;
               c_Env := map env_entry (range_map host (Env config)) |} in
  let hc := {| h_Mounts := map bind_mount (Mounts config);
               h_NetworkMode := "host" |} in
  let call := EvContainerCreate (client dm) (context dm) cc hc nil_ptr "" in
  match client_ContainerCreate host (client dm) (context dm) cc hc nil_ptr "" with
  | Ok resp_ID =>
      fst (ContainerCreate host config w) = Ok {| manager := dm; id := resp_ID |}
      /\ new_events (ContainerCreate host config) w = [EvGetwd; call]
  | Err err =>
      fst (ContainerCreate host config w) = Err (client_err err)
      /\ new_events (ContainerCreate host config) w
         = [EvGetwd; call; EvLogError "Error creating container" (client_err err)]
  end.
Proof.
  intros Hwd dm cc hc call. subst dm cc hc call.
  destruct (client_ContainerCreate host _ _ _ _ _ _) as [resp_ID|err] eqn:Hcreate;
    (split; [ | apply new_events_ext ]);
    unfold ContainerCreate; run_manager; rewrite Hwd; run_manager;
    rewrite mounts_loop_map, env_loop_map, Hcreate; cbn;
    try reflexivity; now rewrite <- !app_assoc.
Qed.

(** The one call [ContainerCreate] sends to the daemon. *)
Lemma ContainerCreate_call (host : Host) (config : Config) (w : World) (wd : string) :
  os_Getwd host = Ok wd ->
  new_daemon_calls (ContainerCreate host config) w
  = [EvContainerCreate (client (w_manager w)) (context (w_manager w))
       {| c_Image := Image config; c_Entrypoint := ["sh"];
          c_Cmd := ["-c"; Cmd config]; c_WorkingDir := wd;
          c_Env := map env_entry (range_map host (Env config)) |}
       {| h_Mounts := map bind_mount (Mounts config); h_NetworkMode := "host" |}
       nil_ptr ""].
Proof.
  intros Hwd. pose proof (ContainerCreate_run host config w wd Hwd) as Hrun.
  cbn zeta in Hrun. unfold new_daemon_calls.
  destruct (client_ContainerCreate host _ _ _ _ _ _);
    destruct Hrun as [_ ->]; reflexivity.
Qed.

(** C6: the create call of [ContainerCreate] carries one bind mount per
    mount specification of the configuration, in the same order, each with
    the source path, the target path and the read-only flag of the
    specification it comes from. *)
Theorem ContainerCreate_mounts (host : Host) (config : Config) (w : World)
    (wd : string) :
  os_Getwd host = Ok wd ->
  exists cc hc,
    new_daemon_calls (ContainerCreate host config) w
    = [EvContainerCreate (client (w_manager w)) (context (w_manager w))
         cc hc nil_ptr ""]
    /\ length (h_Mounts hc) = length (Mounts config)
    /\ (forall i m,
           Mounts config !! i = Some m ->
           h_Mounts hc !! i
           = Some {| m_Type := TypeBind; m_Source := Source m;
                     m_Target := Target m; m_ReadOnly := ReadOnly m |})
    /\ (forall i b,
           h_Mounts hc !! i = Some b ->
           exists m, Mounts config !! i = Some m /\ b = bind_mount m).
Proof.
  intros Hwd. eexists _, _. split; [ exact (ContainerCreate_call host config w wd Hwd) | ].
  cbn [h_Mounts]. split; [ apply length_map | ]. split.
  - intros i m Hm. rewrite list_lookup_fmap, Hm. reflexivity.
  - intros i b Hb. rewrite list_lookup_fmap in Hb.
    destruct (Mounts config !! i) as [m|]; [ | discriminate ].
    exists m. split; [ reflexivity | ]. now injection Hb as <-.
Qed.

Lemma ContainerCreate_mounts_witness :
  exists cc hc,
    new_daemon_calls (ContainerCreate Examples.healthy Examples.two_mounts)
      Examples.world
    = [EvContainerCreate (client (w_manager Examples.world))
         (context (w_manager Examples.world)) cc hc nil_ptr ""]
    /\ h_Mounts hc
       = [ {| m_Type := TypeBind; m_Source := "/tmp/a"; m_Target := "/a";
              m_ReadOnly := true |};
           {| m_Type := TypeBind; m_Source := "/tmp/b"; m_Target := "/b";
              m_ReadOnly := false |} ].
Proof.
  destruct (ContainerCreate_mounts Examples.healthy Examples.two_mounts
              Examples.world "/work" eq_refl)
    as (cc & hc & Hcall & Hlen & Hfwd & _).
  exists cc, hc. split; [ exact Hcall | ].
  pose proof (Hfwd 0 _ eq_refl) as H0. pose proof (Hfwd 1 _ eq_refl) as H1.
  destruct (h_Mounts hc) as [|b0 [|b1 [|b2 rest]]]; try discriminate Hlen.
  injection H0 as ->. injection H1 as ->. reflexivity.
Defined.

(** C7: whatever the command string holds, the create call of
    [ContainerCreate] has the entrypoint [sh], the command [-c] followed
    by the configured command string as it is, and the network mode
    [host]. *)
Theorem ContainerCreate_shell_host (host : Host) (config : Config) (w : World)
    (wd : string) :
  os_Getwd host = Ok wd ->
  exists cc hc,
    new_daemon_calls (ContainerCreate host config) w
    = [EvContainerCreate (client (w_manager w)) (context (w_manager w))
         cc hc nil_ptr ""]
    /\ c_Entrypoint cc = ["sh"]
    /\ c_Cmd cc = ["-c"; Cmd config]
    /\ h_NetworkMode hc = "host".
Proof.
  intros Hwd. eexists _, _.
  split; [ exact (ContainerCreate_call host config w wd Hwd) | ].
  repeat split.
Qed.

Lemma ContainerCreate_shell_host_witness :
  exists cc hc,
    new_daemon_calls (ContainerCreate Examples.healthy Examples.two_mounts)
      Examples.world
    = [EvContainerCreate (client (w_manager Examples.world))
         (context (w_manager Examples.world)) cc hc nil_ptr ""]
    /\ c_Entrypoint cc = ["sh"]
    /\ c_Cmd cc = ["-c"; "echo hi | tee /a/out; ls > /dev/null"]
    /\ h_NetworkMode hc = "host".
Proof.
  exact (ContainerCreate_shell_host Examples.healthy Examples.two_mounts
           Examples.world "/work" eq_refl).
Defined.

(** C8: [GetSystemMounts] reads nothing and changes nothing; in every
    world it returns the same two mounts, the daemon socket writable and
    the credential directory read-only. *)
Theorem GetSystemMounts_fixed (w : World) :
  GetSystemMounts w
  = ([ {| Source := "/var/run/docker.sock"; Target := "/var/run/docker.sock";
          ReadOnly := false |};
       {| Source := "/root/.docker"; Target := "/root/.docker";
          ReadOnly := true |} ], w)
  /\ length (fst (GetSystemMounts w)) = 2
  /\ new_events GetSystemMounts w = [].
Proof.
  repeat split. now apply new_events_same.
Qed.

(** ** The frame of the methods *)

Lemma frame_ret {A : Type} (a : A) : frame (ret a).
Proof.
  intros w. repeat split. exists []. split; [ symmetry; apply app_nil_r | constructor ].
Qed.

Lemma frame_get_manager : frame get_manager.
Proof.
  intros w. repeat split. exists []. split; [ symmetry; apply app_nil_r | constructor ].
Qed.

Lemma frame_emit (e : Event) : is_lock e = false -> frame (emit e).
Proof.
  intros He w. repeat split. exists [e]. split; [ reflexivity | now repeat constructor ].
Qed.

Lemma frame_bind {A B : Type} (c : M A) (k : A -> M B) :
  frame c -> (forall a, frame (k a)) -> frame (bind c k).
Proof.
  intros Hc Hk w. unfold bind.
  destruct (c w) as [a w1] eqn:Hrun.
  destruct (Hc w) as (Hm1 & Hl1 & evs1 & Ht1 & Hf1). rewrite Hrun in *. cbn [snd] in *.
  destruct (Hk a w1) as (Hm2 & Hl2 & evs2 & Ht2 & Hf2).
  split; [ congruence | ]. split; [ congruence | ].
  exists (evs1 ++ evs2). split.
  - rewrite Ht2, Ht1. now rewrite <- app_assoc.
  - now apply Forall_app.
Qed.

(** One step of a frame proof: the method is taken apart along its binds
    and its case distinctions. *)
Ltac frame_step :=
  match goal with
  | |- frame (bind _ _) => apply frame_bind; [ | intros ? ]
  | |- frame (ret _) => apply frame_ret
  | |- frame get_manager => apply frame_get_manager
  | |- frame (emit _) => apply frame_emit; reflexivity
  | |- frame (log_Error _ _) => apply frame_emit; reflexivity
  | |- frame (match ?x with _ => _ end) => destruct x
  | |- frame (if ?b then _ else _) => destruct b
  end.

Lemma frame_HasImage (host : Host) (image : string) : frame (HasImage host image).
Proof. unfold HasImage, ImageList. repeat frame_step. Qed.

Lemma frame_getAuthConfig (host : Host) (registry : string) :
  frame (getAuthConfig host registry).
Proof. unfold getAuthConfig. repeat frame_step. Qed.

Lemma frame_PullImage (host : Host) (image : string) : frame (PullImage host image).
Proof.
  unfold PullImage, ImagePull.
  repeat (frame_step || apply frame_getAuthConfig).
Qed.

Lemma frame_ContainerCreate (host : Host) (config : Config) :
  frame (ContainerCreate host config).
Proof. unfold ContainerCreate, client_ContainerCreate_call. repeat frame_step. Qed.

Lemma frame_GetSystemMounts : frame GetSystemMounts.
Proof. apply frame_ret. Qed.

Lemma frame_untouched {A : Type} (c : M A) (w : World) :
  frame c -> manager_untouched w (snd (c w)).
Proof.
  intros Hc. destruct (Hc w) as (Hm & Hl & evs & Ht & Hf).
  unfold manager_untouched. rewrite Hm, Hl, Ht, drop_app_length. now repeat split.
Qed.

(** C10: [PullImage], [HasImage], [ContainerCreate] and [GetSystemMounts]
    each leave the client, the context, the mutex and the cancel function
    of the manager as they were, and none of them acquires the mutex: the
    mutex is in the state it was in and the method's events hold no
    [EvLock]. *)
Theorem operations_leave_manager_untouched (host : Host) (image : string)
    (config : Config) (w : World) :
  manager_untouched w (snd (PullImage host image w))
  /\ manager_untouched w (snd (HasImage host image w))
  /\ manager_untouched w (snd (ContainerCreate host config w))
  /\ manager_untouched w (snd (GetSystemMounts w)).
Proof.
  split; [ | split; [ | split ] ]; apply frame_untouched.
  - apply frame_PullImage.
  - apply frame_HasImage.
  - apply frame_ContainerCreate.
  - apply frame_GetSystemMounts.
Qed.

(** ** The manager at work *)

Example NewDockerManager_healthy :
  NewDockerManager Examples.healthy = Ok Examples.world.
Proof. reflexivity. Qed.

(** The end-to-end scenario: the daemon accepts the creation and has
    received the shell entrypoint, the command, the flattened
    environment, one writable bind mount and host networking. *)
Example ContainerCreate_scenario :
  ContainerCreate Examples.healthy Examples.scenario Examples.world
  = (Ok {| manager := w_manager Examples.world; id := "0123456789ab" |},
     {| w_manager := w_manager Examples.world;
        w_locked := false;
        w_trace :=
          [ EvGetwd;
            EvContainerCreate (client (w_manager Examples.world))
              (context (w_manager Examples.world))
              {| c_Image := "alpine"; c_Entrypoint := ["sh"];
                 c_Cmd := ["-c"; "echo hi"]; c_WorkingDir := "/work";
                 c_Env := ["X=1"] |}
              {| h_Mounts := [ {| m_Type := TypeBind; m_Source := "/tmp/a";
                                  m_Target := "/a"; m_ReadOnly := false |} ];
                 h_NetworkMode := "host" |}
              nil_ptr "" ] |}).
Proof. reflexivity. Qed.

Example PullImage_with_credentials :
  new_daemon_calls
    (PullImage Examples.healthy "registry.example.com/team/app:1.2")
    Examples.world
  = [EvImagePull (client (w_manager Examples.world))
       (context (w_manager Examples.world))
       "registry.example.com/team/app:1.2"
       {| RegistryAuth :=
            "eyJ1c2VybmFtZSI6ImJvYiIsInBhc3N3b3JkIjoic2VjcmV0In0=" |}].
Proof. reflexivity. Qed.

(** * Further properties of the methods *)

(** ** [PullImage]: the call, its failure and its success *)

(** The daemon calls of [PullImage] once the reference has parsed. *)
Lemma PullImage_call_shape (host : Host) (image : string) (named : Named)
    (w : World) :
  reference_ParseNormalizedNamed host image = Ok named ->
  exists encodedJSON,
    json_Marshal
      (reflect_AuthConfig_ptr
         (addr_of (credentials_of (stored_credentials host (reference_Domain named)))))
    = Ok encodedJSON
    /\ new_daemon_calls (PullImage host image) w
       = [EvImagePull (client (w_manager w)) (context (w_manager w)) image
            {| RegistryAuth := base64_URLEncoding_EncodeToString encodedJSON |}].
Proof.
  intros Hparse.
  destruct (PullImage_parsed host image named w Hparse) as (encodedJSON & Hjson & Hrun).
  rewrite getAuthConfig_run in Hjson. cbn [fst] in Hjson.
  exists encodedJSON. split; [ exact Hjson | ].
  cbn zeta in Hrun. unfold new_daemon_calls.
  destruct (client_ImagePull host _ _ image _); destruct Hrun as [_ ->]; reflexivity.
Qed.

(** X1: when the reference parses and the daemon refuses the pull call
    that carries the resolved credentials, [PullImage] returns the
    daemon's error; after the pull call the only event is the log line:
    nothing is written to standard output and no stream is closed. *)
Theorem PullImage_pull_failure (host : Host) (image : string) (named : Named)
    (w : World) (encodedJSON err : string) :
  reference_ParseNormalizedNamed host image = Ok named ->
  json_Marshal
    (reflect_AuthConfig_ptr
       (addr_of (credentials_of (stored_credentials host (reference_Domain named)))))
  = Ok encodedJSON ->
  client_ImagePull host (client (w_manager w)) (context (w_manager w)) image
    {| RegistryAuth := base64_URLEncoding_EncodeToString encodedJSON |}
  = Err err ->
  fst (PullImage host image w) = Some (client_err err)
  /\ new_events (PullImage host image) w
     = [EvReadDockerCfg;
        EvImagePull (client (w_manager w)) (context (w_manager w)) image
          {| RegistryAuth := base64_URLEncoding_EncodeToString encodedJSON |};
        EvLogError "Error pulling image" (client_err err)].
Proof.
  intros Hparse Hjson Hpull.
  destruct (PullImage_parsed host image named w Hparse) as (j & Hj & Hrun).
  rewrite getAuthConfig_run in Hj. cbn [fst] in Hj.
  unfold credentials_of in Hjson. rewrite Hjson in Hj. injection Hj as <-.
  cbn zeta in Hrun. rewrite Hpull in Hrun. exact Hrun.
Qed.

Lemma PullImage_pull_failure_witness :
  fst (PullImage Failures.pull_refused "alpine" Examples.world)
  = Some (client_err "pull access denied").
Proof.
  refine (proj1 (PullImage_pull_failure Failures.pull_refused "alpine"
                   {| named_domain := "docker.io"; named_path := "library/alpine";
                      named_tag := None; named_digest := None |}
                   Examples.world "{}" "pull access denied" _ _ _)); reflexivity.
Defined.

(** X2: when the reference parses and the daemon starts the pull,
    [PullImage] returns nil; the response body is written to standard
    output as it came, once, and the stream is closed after that. *)
Theorem PullImage_relays_then_closes (host : Host) (image : string)
    (named : Named) (w : World) (encodedJSON out : string) :
  reference_ParseNormalizedNamed host image = Ok named ->
  json_Marshal
    (reflect_AuthConfig_ptr
       (addr_of (credentials_of (stored_credentials host (reference_Domain named)))))
  = Ok encodedJSON ->
  client_ImagePull host (client (w_manager w)) (context (w_manager w)) image
    {| RegistryAuth := base64_URLEncoding_EncodeToString encodedJSON |}
  = Ok out ->
  fst (PullImage host image w) = None
  /\ new_events (PullImage host image) w
     = [EvReadDockerCfg;
        EvImagePull (client (w_manager w)) (context (w_manager w)) image
          {| RegistryAuth := base64_URLEncoding_EncodeToString encodedJSON |};
        EvStdout out; EvClose].
Proof.
  intros Hparse Hjson Hpull.
  destruct (PullImage_parsed host image named w Hparse) as (j & Hj & Hrun).
  rewrite getAuthConfig_run in Hj. cbn [fst] in Hj.
  unfold credentials_of in Hjson. rewrite Hjson in Hj. injection Hj as <-.
  cbn zeta in Hrun. rewrite Hpull in Hrun. exact Hrun.
Qed.

Lemma PullImage_relays_then_closes_witness :
  fst (PullImage Examples.healthy "alpine" Examples.world) = None.
Proof.
  refine (proj1 (PullImage_relays_then_closes Examples.healthy "alpine"
                   {| named_domain := "docker.io"; named_path := "library/alpine";
                      named_tag := None; named_digest := None |}
                   Examples.world "{}" "{}" _ _ _)); reflexivity.
Defined.

(** X3: [PullImage] makes a single attempt: its daemon calls are either
    none (the reference did not parse) or one pull call carrying the
    reference as given; it never lists images and never creates a
    container. *)
Theorem PullImage_single_attempt (host : Host) (image : string) (w : World) :
  new_daemon_calls (PullImage host image) w = []
  \/ exists opts,
       new_daemon_calls (PullImage host image) w
       = [EvImagePull (client (w_manager w)) (context (w_manager w)) image opts].
Proof.
  destruct (reference_ParseNormalizedNamed host image) as [named|err] eqn:Hparse.
  - right. destruct (PullImage_call_shape host image named w Hparse)
      as (encodedJSON & _ & Hcalls). eexists. exact Hcalls.
  - left. destruct (PullImage_unparsed host image w err Hparse) as [_ Hevents].
    unfold new_daemon_calls. now rewrite Hevents.
Qed.

(** X4: [PullImage] returns nil exactly when it closed the response
    stream, and it closes it at most once; when it returns an error it
    has written nothing to standard output. *)
Theorem PullImage_nil_iff_closed (host : Host) (image : string) (w : World) :
  (fst (PullImage host image w) = None
   <-> EvClose ∈ new_events (PullImage host image) w)
  /\ length (filter (fun e => is_close e = true)
               (new_events (PullImage host image) w)) <= 1
  /\ (fst (PullImage host image w) <> None ->
      forall data, EvStdout data ∉ new_events (PullImage host image) w).
Proof.
  destruct (reference_ParseNormalizedNamed host image) as [named|perr] eqn:Hparse.
  - destruct (PullImage_parsed host image named w Hparse) as (encodedJSON & _ & Hrun).
    cbn zeta in Hrun.
    destruct (client_ImagePull host _ _ image _) as [out|err];
      destruct Hrun as [-> ->]; (split; [ split | split ]).
    + intros _. rewrite !elem_of_cons. tauto.
    + reflexivity.
    + vm_compute; lia.
    + intros Habs. now contradiction Habs.
    + discriminate.
    + intros Hin. absent_from_trace Hin.
    + vm_compute; lia.
    + intros _ data Hin. absent_from_trace Hin.
  - destruct (PullImage_unparsed host image w perr Hparse) as [-> ->].
    split; [ split | split ].
    + discriminate.
    + intros Hin. absent_from_trace Hin.
    + vm_compute; lia.
    + intros _ data Hin. absent_from_trace Hin.
Qed.

Lemma PullImage_nil_iff_closed_witness :
  fst (PullImage Failures.pull_refused "alpine" Examples.world) <> None
  /\ EvStdout "{}"
     ∉ new_events (PullImage Failures.pull_refused "alpine") Examples.world.
Proof.
  split; [ discriminate | ].
  refine (proj2 (proj2 (PullImage_nil_iff_closed Failures.pull_refused "alpine"
                          Examples.world)) _ "{}").
  discriminate.
Defined.

(** X5: of a stored entry only the username and the password reach the
    daemon: two hosts whose entries for the registry agree on these two
    fields make the same pull call, whatever else the entries hold
    (e-mail, server address, tokens). *)
Theorem PullImage_only_username_password (h1 h2 : Host) (image : string)
    (named : Named) (w : World) (a1 a2 : AuthConfiguration) :
  reference_ParseNormalizedNamed h1 image = Ok named ->
  reference_ParseNormalizedNamed h2 image = Ok named ->
  stored_credentials h1 (reference_Domain named) = Some a1 ->
  stored_credentials h2 (reference_Domain named) = Some a2 ->
  ac_Username a1 = ac_Username a2 ->
  ac_Password a1 = ac_Password a2 ->
  new_daemon_calls (PullImage h1 image) w = new_daemon_calls (PullImage h2 image) w.
Proof.
  intros Hp1 Hp2 Hs1 Hs2 Hu Hpw.
  destruct (PullImage_call_shape h1 image named w Hp1) as (j1 & Hj1 & ->).
  destruct (PullImage_call_shape h2 image named w Hp2) as (j2 & Hj2 & ->).
  rewrite Hs1 in Hj1. rewrite Hs2 in Hj2. unfold credentials_of in Hj1, Hj2.
  rewrite Hu, Hpw in Hj1. rewrite Hj1 in Hj2. now injection Hj2 as ->.
Qed.

Lemma PullImage_only_username_password_witness :
  new_daemon_calls
    (PullImage Examples.healthy "registry.example.com/team/app:1.2") Examples.world
  = new_daemon_calls
      (PullImage Failures.other_tokens "registry.example.com/team/app:1.2")
      Examples.world.
Proof.
  refine (PullImage_only_username_password Examples.healthy Failures.other_tokens
            "registry.example.com/team/app:1.2"
            {| named_domain := "registry.example.com"; named_path := "team/app";
               named_tag := Some "1.2"; named_digest := None |}
            Examples.world
            {| ac_Username := "bob"; ac_Password := "secret";
               ac_Email := "bob@example.com";
               ac_ServerAddress := "registry.example.com";
               ac_IdentityToken := "idtoken"; ac_RegistryToken := "" |}
            {| ac_Username := "bob"; ac_Password := "secret";
               ac_Email := ""; ac_ServerAddress := "";
               ac_IdentityToken := ""; ac_RegistryToken := "bearer" |}
            _ _ _ _ _ _); reflexivity.
Defined.

(** ** [HasImage]: what it finds and what it asks *)

Lemma images_loop_perm (image : string) (l1 l2 : list ImageSummary) :
  l1 ≡ₚ l2 -> images_loop image l1 = images_loop image l2.
Proof.
  intros Hperm.
  destruct (images_loop image l1) eqn:H1; destruct (images_loop image l2) eqn:H2;
    try reflexivity.
  - apply images_loop_elem in H1 as (info & Hin & Htag).
    rewrite Hperm in Hin.
    assert (Hfound : images_loop image l2 = true)
      by (apply images_loop_elem; eauto).
    congruence.
  - apply images_loop_elem in H2 as (info & Hin & Htag).
    rewrite <- Hperm in Hin.
    assert (Hfound : images_loop image l1 = true)
      by (apply images_loop_elem; eauto).
    congruence.
Qed.

(** The daemon calls of [HasImage] on a non-empty reference. *)
Lemma HasImage_calls (host : Host) (image : string) (w : World) :
  image <> "" ->
  new_daemon_calls (HasImage host image) w
  = [EvImageList (client (w_manager w)) (context (w_manager w)) {| All := false |}].
Proof.
  intros Hne. pose proof (HasImage_nonempty host image w Hne) as Hrun.
  cbn zeta in Hrun. unfold new_daemon_calls.
  destruct (client_ImageList host _ _ _); destruct Hrun as [_ ->]; reflexivity.
Qed.

(** X6: on a daemon that lists its images, a non-empty reference without
    any colon is reported present exactly when one of the listed images
    carries the reference followed by [:latest] among its repo tags. *)
Theorem HasImage_latest_iff (host : Host) (image : string) (w : World)
    (images : list ImageSummary) :
  image <> "" ->
  strings_Contains image ":" = false ->
  client_ImageList host (client (w_manager w)) (context (w_manager w))
    {| All := false |} = Ok images ->
  fst (HasImage host image w) = true
  <-> exists imageInfo,
        imageInfo ∈ images /\ image +:+ ":latest" ∈ RepoTags imageInfo.
Proof.
  intros Hne Hcolon Hlist.
  pose proof (HasImage_nonempty host image w Hne) as Hrun. cbn zeta in Hrun.
  rewrite Hlist in Hrun. destruct Hrun as [-> _].
  unfold compared_reference. rewrite Hcolon. apply images_loop_elem.
Qed.

Lemma HasImage_latest_iff_witness :
  fst (HasImage Examples.healthy "alpine" Examples.world) = true.
Proof.
  apply (HasImage_latest_iff Examples.healthy "alpine" Examples.world Examples.images);
    [ discriminate | reflexivity | reflexivity | ].
  exists {| ID := "sha256:a1"; RepoTags := ["alpine:latest"; "alpine:3.9"] |}.
  split; [ apply list_elem_of_here | apply list_elem_of_here ].
Defined.

(** X7: on a daemon that lists its images, a reference that contains a
    colon is reported present exactly when one of the listed images
    carries that very string among its repo tags. *)
Theorem HasImage_exact_iff (host : Host) (image : string) (w : World)
    (images : list ImageSummary) :
  strings_Contains image ":" = true ->
  client_ImageList host (client (w_manager w)) (context (w_manager w))
    {| All := false |} = Ok images ->
  fst (HasImage host image w) = true
  <-> exists imageInfo, imageInfo ∈ images /\ image ∈ RepoTags imageInfo.
Proof.
  intros Hcolon Hlist.
  assert (Hne : image <> "") by (intros ->; discriminate Hcolon).
  pose proof (HasImage_nonempty host image w Hne) as Hrun. cbn zeta in Hrun.
  rewrite Hlist in Hrun. destruct Hrun as [-> _].
  unfold compared_reference. rewrite Hcolon. apply images_loop_elem.
Qed.

Lemma HasImage_exact_iff_witness :
  fst (HasImage Examples.healthy "alpine:3.9" Examples.world) = true.
Proof.
  apply (HasImage_exact_iff Examples.healthy "alpine:3.9" Examples.world
           Examples.images); [ reflexivity | reflexivity | ].
  exists {| ID := "sha256:a1"; RepoTags := ["alpine:latest"; "alpine:3.9"] |}.
  split; [ apply list_elem_of_here | ].
  apply list_elem_of_further, list_elem_of_here.
Defined.

(** X8: the answer of [HasImage] does not depend on the order in which
    the daemon lists its images: two daemons whose listings are
    permutations of each other get the same answer, although the loops
    stop at the first match. *)
Theorem HasImage_order_independent (h1 h2 : Host) (image : string) (w : World)
    (l1 l2 : list ImageSummary) :
  client_ImageList h1 (client (w_manager w)) (context (w_manager w))
    {| All := false |} = Ok l1 ->
  client_ImageList h2 (client (w_manager w)) (context (w_manager w))
    {| All := false |} = Ok l2 ->
  l1 ≡ₚ l2 ->
  fst (HasImage h1 image w) = fst (HasImage h2 image w).
Proof.
  intros Hl1 Hl2 Hperm.
  destruct (String.eqb_spec image "") as [->|Hne]; [ reflexivity | ].
  pose proof (HasImage_nonempty h1 image w Hne) as Hr1.
  pose proof (HasImage_nonempty h2 image w Hne) as Hr2.
  cbn zeta in Hr1, Hr2. rewrite Hl1 in Hr1. rewrite Hl2 in Hr2.
  destruct Hr1 as [-> _]. destruct Hr2 as [-> _].
  now apply images_loop_perm.
Qed.

Lemma HasImage_order_independent_witness :
  fst (HasImage Examples.healthy "alpine:3.9" Examples.world)
  = fst (HasImage Failures.reordered "alpine:3.9" Examples.world).
Proof.
  apply (HasImage_order_independent Examples.healthy Failures.reordered
           "alpine:3.9" Examples.world Examples.images (reverse Examples.images));
    [ reflexivity | reflexivity | ].
  symmetry. apply reverse_Permutation.
Defined.

(** X9: [HasImage] only ever lists: for the empty reference it calls the
    daemon not at all, for any other reference exactly once, with the
    empty listing options, whether the listing then succeeds or fails; it
    never pulls an image. *)
Theorem HasImage_only_lists (host : Host) (image : string) (w : World) :
  new_daemon_calls (HasImage host image) w
  = if String.eqb image "" then []
    else [EvImageList (client (w_manager w)) (context (w_manager w))
            {| All := false |}].
Proof.
  destruct (String.eqb_spec image "") as [->|Hne].
  - unfold new_daemon_calls. now rewrite new_events_same.
  - now apply HasImage_calls.
Qed.

(** X10: a reference that contains a colon but has no explicit tag (the
    colon belongs to a registry port or to a digest) is never reported
    present by a daemon all of whose repo tags carry a tag. *)
Theorem HasImage_untagged_colon_absent (host : Host) (image : string) (w : World)
    (images : list ImageSummary) :
  strings_Contains image ":" = true ->
  explicit_tag image = None ->
  client_ImageList host (client (w_manager w)) (context (w_manager w))
    {| All := false |} = Ok images ->
  Forall (fun imageInfo =>
            Forall (fun tag => explicit_tag tag <> None) (RepoTags imageInfo))
    images ->
  fst (HasImage host image w) = false.
Proof.
  intros Hcolon Hnotag Hlist Htags.
  destruct (fst (HasImage host image w)) eqn:Hres; [ exfalso | reflexivity ].
  assert (Hne : image <> "") by (intros ->; discriminate Hcolon).
  pose proof (HasImage_nonempty host image w Hne) as Hrun. cbn zeta in Hrun.
  rewrite Hlist in Hrun. destruct Hrun as [Hrun _]. rewrite Hres in Hrun.
  symmetry in Hrun. unfold compared_reference in Hrun. rewrite Hcolon in Hrun.
  apply images_loop_elem in Hrun as (info & Hin & Htag).
  rewrite Forall_forall in Htags. specialize (Htags info Hin).
  rewrite Forall_forall in Htags. exact (Htags image Htag Hnotag).
Qed.

Lemma HasImage_untagged_colon_absent_witness :
  fst (HasImage Examples.healthy "registry.example.com:5000/team/app"
         Examples.world) = false.
Proof.
  apply (HasImage_untagged_colon_absent Examples.healthy
           "registry.example.com:5000/team/app" Examples.world Examples.images);
    [ reflexivity | reflexivity | reflexivity | ].
  repeat (constructor; try discriminate).
Defined.

(** ** [ContainerCreate]: failures, the handle and the environment *)

(** X11: when the working directory cannot be resolved, [ContainerCreate]
    returns that error and stops: no call reaches the daemon and nothing
    is logged. *)
Theorem ContainerCreate_getwd_failure (host : Host) (config : Config) (w : World)
    (err : string) :
  os_Getwd host = Err err ->
  fst (ContainerCreate host config w) = Err (os_err err)
  /\ new_events (ContainerCreate host config) w = [EvGetwd]
  /\ new_daemon_calls (ContainerCreate host config) w = [].
Proof.
  intros Hwd. destruct (ContainerCreate_no_wd host config w err Hwd) as [Hret Hevents].
  split; [ exact Hret | ]. split; [ exact Hevents | ].
  unfold new_daemon_calls. now rewrite Hevents.
Qed.

Lemma ContainerCreate_getwd_failure_witness :
  fst (ContainerCreate Failures.no_wd Examples.scenario Examples.world)
  = Err (os_err "getwd: no such file or directory").
Proof.
  exact (proj1 (ContainerCreate_getwd_failure Failures.no_wd Examples.scenario
                  Examples.world "getwd: no such file or directory" eq_refl)).
Defined.

(** X12: when the daemon refuses the create call, [ContainerCreate]
    returns the daemon's error and no handle, after that one call and one
    log line; it does not try again. *)
Theorem ContainerCreate_daemon_failure (host : Host) (config : Config) (w : World)
    (wd err : string) :
  let cc := {| c_Image := Image config; c_Entrypoint := ["sh"];
               c_Cmd := ["-c"; Cmd config]; c_WorkingDir := wd;
               c_Env := map env_entry (range_map host (Env config)) |} in
  let hc := {| h_Mounts := map bind_mount (Mounts config);
               h_NetworkMode := "host" |} in
  os_Getwd host = Ok wd ->
  client_ContainerCreate host (client (w_manager w)) (context (w_manager w))
    cc hc nil_ptr "" = Err err ->
  fst (ContainerCreate host config w) = Err (client_err err)
  /\ new_events (ContainerCreate host config) w
     = [EvGetwd;
        EvContainerCreate (client (w_manager w)) (context (w_manager w))
          cc hc nil_ptr "";
        EvLogError "Error creating container" (client_err err)].
Proof.
  intros cc hc Hwd Hcreate. subst cc hc.
  pose proof (ContainerCreate_run host config w wd Hwd) as Hrun. cbn zeta in Hrun.
  rewrite Hcreate in Hrun. exact Hrun.
Qed.

Lemma ContainerCreate_daemon_failure_witness :
  fst (ContainerCreate Failures.create_refused Examples.scenario Examples.world)
  = Err (client_err "No such image: alpine").
Proof.
  exact (proj1 (ContainerCreate_daemon_failure Failures.create_refused
                  Examples.scenario Examples.world "/work"
                  "No such image: alpine" eq_refl eq_refl)).
Defined.

(** X13: when the daemon accepts the create call, [ContainerCreate]
    returns a handle that holds the identifier the daemon answered and
    the manager the method was called on; nothing is logged. *)
Theorem ContainerCreate_handle (host : Host) (config : Config) (w : World)
    (wd resp_ID : string) :
  let cc := {| c_Image := Image config; c_Entrypoint := ["sh"];
               c_Cmd := ["-c"; Cmd config]; c_WorkingDir := wd;
               c_Env := map env_entry (range_map host (Env config)) |} in
  let hc := {| h_Mounts := map bind_mount (Mounts config);
               h_NetworkMode := "host" |} in
  os_Getwd host = Ok wd ->
  client_ContainerCreate host (client (w_manager w)) (context (w_manager w))
    cc hc nil_ptr "" = Ok resp_ID ->
  fst (ContainerCreate host config w)
  = Ok {| manager := w_manager w; id := resp_ID |}
  /\ forall msg e, EvLogError msg e ∉ new_events (ContainerCreate host config) w.
Proof.
  intros cc hc Hwd Hcreate. subst cc hc.
  pose proof (ContainerCreate_run host config w wd Hwd) as Hrun. cbn zeta in Hrun.
  rewrite Hcreate in Hrun. destruct Hrun as [Hret Hevents].
  split; [ exact Hret | ]. intros msg e Hin. rewrite Hevents in Hin.
  absent_from_trace Hin.
Qed.

Lemma ContainerCreate_handle_witness :
  fst (ContainerCreate Examples.healthy Examples.scenario Examples.world)
  = Ok {| manager := w_manager Examples.world; id := "0123456789ab" |}.
Proof.
  exact (proj1 (ContainerCreate_handle Examples.healthy Examples.scenario
                  Examples.world "/work" "0123456789ab" eq_refl eq_refl)).
Defined.

(** The environment entry of a key without ['='] gives the key and the
    value back when cut at its first ['=']. *)
Lemma env_entry_cut (key value : string) :
  strings_Contains key "=" = false ->
  before_char "=" (env_entry (key, value)) = key
  /\ after_char "=" (env_entry (key, value)) = Some value.
Proof.
  unfold env_entry. cbn [fst snd]. induction key as [|a key IH]; intros Hkey.
  - split; reflexivity.
  - rewrite Contains_char_cons in Hkey. apply orb_false_iff in Hkey as [Ha Hkey].
    rewrite Ascii.eqb_sym in Ha. destruct (IH Hkey) as [IHb IHa].
    simpl. rewrite Ha.
    split; [ now rewrite IHb | exact IHa ].
Qed.

(** X14: the environment of the create call holds one [KEY=VALUE] entry
    per entry of the configuration's map and nothing else: it is a
    permutation of the flattened map, so its length is the size of the
    map, in whatever order the map was visited. *)
Theorem ContainerCreate_env_permutation (host : Host) (config : Config)
    (w : World) (wd : string) :
  os_Getwd host = Ok wd ->
  exists cc hc,
    new_daemon_calls (ContainerCreate host config) w
    = [EvContainerCreate (client (w_manager w)) (context (w_manager w))
         cc hc nil_ptr ""]
    /\ c_Env cc ≡ₚ map env_entry (map_to_list (Env config))
    /\ length (c_Env cc) = size (Env config).
Proof.
  intros Hwd. eexists _, _.
  split; [ exact (ContainerCreate_call host config w wd Hwd) | ].
  cbn [c_Env]. split.
  - apply Permutation_map, (range_map_perm host).
  - rewrite length_map, (range_map_perm host (Env config)).
    apply length_map_to_list.
Qed.

Lemma ContainerCreate_env_permutation_witness :
  exists cc hc,
    new_daemon_calls (ContainerCreate Examples.healthy Examples.scenario)
      Examples.world
    = [EvContainerCreate (client (w_manager Examples.world))
         (context (w_manager Examples.world)) cc hc nil_ptr ""]
    /\ length (c_Env cc) = 1.
Proof.
  destruct (ContainerCreate_env_permutation Examples.healthy Examples.scenario
              Examples.world "/work" eq_refl) as (cc & hc & Hcall & _ & Hlen).
  exists cc, hc. split; [ exact Hcall | exact Hlen ].
Defined.

(** X15: every variable of the configuration can be read back from the
    create call: for a key without ['='] bound to a value, the
    environment holds an entry whose part before the first ['='] is the
    key and whose part after it is the value. *)
Theorem ContainerCreate_env_readback (host : Host) (config : Config) (w : World)
    (wd key value : string) :
  os_Getwd host = Ok wd ->
  Env config !! key = Some value ->
  strings_Contains key "=" = false ->
  exists cc hc entry,
    new_daemon_calls (ContainerCreate host config) w
    = [EvContainerCreate (client (w_manager w)) (context (w_manager w))
         cc hc nil_ptr ""]
    /\ entry ∈ c_Env cc
    /\ before_char "=" entry = key
    /\ after_char "=" entry = Some value.
Proof.
  intros Hwd Hlookup Hkey. eexists _, _, (env_entry (key, value)).
  split; [ exact (ContainerCreate_call host config w wd Hwd) | ].
  cbn [c_Env]. split; [ | exact (env_entry_cut key value Hkey) ].
  apply list_elem_of_In, in_map, list_elem_of_In.
  rewrite (range_map_perm host (Env config)).
  now apply elem_of_map_to_list.
Qed.

Lemma ContainerCreate_env_readback_witness :
  exists cc hc entry,
    new_daemon_calls (ContainerCreate Examples.healthy Examples.scenario)
      Examples.world
    = [EvContainerCreate (client (w_manager Examples.world))
         (context (w_manager Examples.world)) cc hc nil_ptr ""]
    /\ entry ∈ c_Env cc
    /\ before_char "=" entry = "X"
    /\ after_char "=" entry = Some "1".
Proof.
  exact (ContainerCreate_env_readback Examples.healthy Examples.scenario
           Examples.world "/work" "X" "1" eq_refl eq_refl eq_refl).
Defined.

(** X16: [ContainerCreate] neither checks for the image nor pulls it:
    its daemon calls are none when the working directory is unknown and
    otherwise the one create call, for the configured image, in the
    caller's working directory, with no networking configuration and no
    container name. *)
Theorem ContainerCreate_only_creates (host : Host) (config : Config) (w : World) :
  match os_Getwd host with
  | Err _ => new_daemon_calls (ContainerCreate host config) w = []
  | Ok wd =>
      exists cc hc,
        new_daemon_calls (ContainerCreate host config) w
        = [EvContainerCreate (client (w_manager w)) (context (w_manager w))
             cc hc nil_ptr ""]
        /\ c_Image cc = Image config
        /\ c_WorkingDir cc = wd
  end.
Proof.
  destruct (os_Getwd host) as [wd|err] eqn:Hwd.
  - eexists _, _. split; [ exact (ContainerCreate_call host config w wd Hwd) | ].
    now split.
  - destruct (ContainerCreate_no_wd host config w err Hwd) as [_ Hevents].
    unfold new_daemon_calls. now rewrite Hevents.
Qed.

(** X17: the system mounts compose with the creation: a configuration
    whose mount list starts with the result of [GetSystemMounts] gives the
    container the daemon socket as a writable bind mount and the
    credential directory as a read-only bind mount, before its other
    mounts. *)
Theorem ContainerCreate_system_mounts (host : Host) (config : Config) (w : World)
    (wd : string) (others : list Mount) :
  os_Getwd host = Ok wd ->
  Mounts config = fst (GetSystemMounts w) ++ others ->
  exists cc hc,
    new_daemon_calls (ContainerCreate host config) w
    = [EvContainerCreate (client (w_manager w)) (context (w_manager w))
         cc hc nil_ptr ""]
    /\ h_Mounts hc
       = {| m_Type := TypeBind; m_Source := "/var/run/docker.sock";
            m_Target := "/var/run/docker.sock"; m_ReadOnly := false |}
         :: {| m_Type := TypeBind; m_Source := "/root/.docker";
               m_Target := "/root/.docker"; m_ReadOnly := true |}
         :: map bind_mount others.
Proof.
  intros Hwd Hmounts. eexists _, _.
  split; [ exact (ContainerCreate_call host config w wd Hwd) | ].
  cbn [h_Mounts]. now rewrite Hmounts.
Qed.

Lemma ContainerCreate_system_mounts_witness :
  exists cc hc,
    new_daemon_calls
      (ContainerCreate Examples.healthy
         {| Image := "docker"; Cmd := "docker ps"; Env := ∅;
            Mounts := fst (GetSystemMounts Examples.world) ++ [] |})
      Examples.world
    = [EvContainerCreate (client (w_manager Examples.world))
         (context (w_manager Examples.world)) cc hc nil_ptr ""]
    /\ length (h_Mounts hc) = 2.
Proof.
  destruct (ContainerCreate_system_mounts Examples.healthy
              {| Image := "docker"; Cmd := "docker ps"; Env := ∅;
                 Mounts := fst (GetSystemMounts Examples.world) ++ [] |}
              Examples.world "/work" [] eq_refl eq_refl)
    as (cc & hc & Hcall & Hmounts).
  exists cc, hc. split; [ exact Hcall | ]. now rewrite Hmounts.
Defined.

(** ** The manager over its life *)

Ltac through_explicit_trace :=
  repeat (constructor; try exact I; try reflexivity).

Lemma PullImage_through (host : Host) (image : string) (w : World) :
  Forall (through_manager (w_manager w)) (new_events (PullImage host image) w).
Proof.
  destruct (reference_ParseNormalizedNamed host image) as [named|perr] eqn:Hparse.
  - destruct (PullImage_parsed host image named w Hparse) as (encodedJSON & _ & Hrun).
    cbn zeta in Hrun.
    destruct (client_ImagePull host _ _ image _); destruct Hrun as [_ ->];
      through_explicit_trace.
  - destruct (PullImage_unparsed host image w perr Hparse) as [_ ->].
    through_explicit_trace.
Qed.

Lemma HasImage_through (host : Host) (image : string) (w : World) :
  Forall (through_manager (w_manager w)) (new_events (HasImage host image) w).
Proof.
  destruct (String.eqb_spec image "") as [->|Hne].
  - rewrite new_events_same by reflexivity. constructor.
  - pose proof (HasImage_nonempty host image w Hne) as Hrun. cbn zeta in Hrun.
    destruct (client_ImageList host _ _ _); destruct Hrun as [_ ->];
      through_explicit_trace.
Qed.

Lemma ContainerCreate_through (host : Host) (config : Config) (w : World) :
  Forall (through_manager (w_manager w)) (new_events (ContainerCreate host config) w).
Proof.
  destruct (os_Getwd host) as [wd|err] eqn:Hwd.
  - pose proof (ContainerCreate_run host config w wd Hwd) as Hrun. cbn zeta in Hrun.
    destruct (client_ContainerCreate host _ _ _ _ _ _); destruct Hrun as [_ ->];
      through_explicit_trace.
  - destruct (ContainerCreate_no_wd host config w err Hwd) as [_ ->].
    through_explicit_trace.
Qed.

Lemma Forall_daemon_calls (P : Event -> Prop) (evs : list Event) :
  Forall P evs -> Forall P (filter (fun e => is_daemon_call e = true) evs).
Proof.
  rewrite !Forall_forall. intros Hall e Hin.
  apply list_elem_of_filter in Hin as [_ Hin]. now apply Hall.
Qed.

(** X18: every call that [PullImage], [HasImage] or [ContainerCreate]
    sends to the daemon goes through the client and the context stored in
    the manager: no method builds a client or a context of its own. *)
Theorem calls_go_through_manager (host : Host) (image : string) (config : Config)
    (w : World) :
  Forall (through_manager (w_manager w)) (new_daemon_calls (PullImage host image) w)
  /\ Forall (through_manager (w_manager w)) (new_daemon_calls (HasImage host image) w)
  /\ Forall (through_manager (w_manager w))
       (new_daemon_calls (ContainerCreate host config) w).
Proof.
  unfold new_daemon_calls. repeat split; apply Forall_daemon_calls.
  - apply PullImage_through.
  - apply HasImage_through.
  - apply ContainerCreate_through.
Qed.

(** One method call keeps the manager and the mutex, and appends events
    that are no lock and go through the manager. *)
Lemma run_operation_step (host : Host) (op : Operation) (w : World) :
  exists evs,
    w_manager (snd (run_operation host op w)) = w_manager w
    /\ w_locked (snd (run_operation host op w)) = w_locked w
    /\ w_trace (snd (run_operation host op w)) = w_trace w ++ evs
    /\ Forall (fun e => is_lock e = false) evs
    /\ Forall (through_manager (w_manager w)) evs.
Proof.
  assert (Hstep : forall (A : Type) (c : M A),
             frame c ->
             Forall (through_manager (w_manager w)) (new_events c w) ->
             exists evs,
               w_manager (snd (bind c (fun _ => ret tt) w)) = w_manager w
               /\ w_locked (snd (bind c (fun _ => ret tt) w)) = w_locked w
               /\ w_trace (snd (bind c (fun _ => ret tt) w)) = w_trace w ++ evs
               /\ Forall (fun e => is_lock e = false) evs
               /\ Forall (through_manager (w_manager w)) evs).
  { intros A c Hframe Hthrough.
    destruct (Hframe w) as (Hm & Hl & evs & Ht & Hf).
    rewrite (new_events_ext c w evs Ht) in Hthrough.
    exists evs. unfold bind, ret. destruct (c w) as [a w1]. cbn [snd] in *.
    now repeat split. }
  destruct op as [image|image|config|]; cbn [run_operation]; apply Hstep.
  - apply frame_PullImage.
  - apply PullImage_through.
  - apply frame_HasImage.
  - apply HasImage_through.
  - apply frame_ContainerCreate.
  - apply ContainerCreate_through.
  - apply frame_GetSystemMounts.
  - rewrite new_events_same by reflexivity. constructor.
Qed.

Lemma run_operations_steps (host : Host) (ops : list Operation) (w : World) :
  exists evs,
    w_manager (snd (run_operations host ops w)) = w_manager w
    /\ w_locked (snd (run_operations host ops w)) = w_locked w
    /\ w_trace (snd (run_operations host ops w)) = w_trace w ++ evs
    /\ Forall (fun e => is_lock e = false) evs
    /\ Forall (through_manager (w_manager w)) evs.
Proof.
  revert w. induction ops as [|op ops IH]; intros w.
  - exists []. cbn. rewrite app_nil_r. now repeat split.
  - destruct (run_operation_step host op w) as (evs1 & Hm1 & Hl1 & Ht1 & Hf1 & Hg1).
    destruct (run_operation host op w) as [[] w1] eqn:Hrun. cbn [snd] in *.
    assert (Hcons : run_operations host (op :: ops) w = run_operations host ops w1)
      by (cbn [run_operations]; unfold bind; now rewrite Hrun).
    rewrite Hcons.
    destruct (IH w1) as (evs2 & Hm2 & Hl2 & Ht2 & Hf2 & Hg2).
    exists (evs1 ++ evs2). rewrite Hm2, Hl2, Ht2, Hm1, Hl1, Ht1.
    rewrite Hm1 in Hg2. rewrite <- app_assoc.
    repeat split; now apply Forall_app.
Qed.

(** X19: the manager that [NewDockerManager] builds stays as built for
    its whole life: after any sequence of calls of the four methods the
    manager object is the one constructed, its cancel function still
    cancels its context, the mutex is free and was never acquired, and
    every daemon call of the whole trace went through the client and the
    context negotiated at construction. *)
Theorem manager_lifetime (host : Host) (w0 : World) (ops : list Operation) :
  NewDockerManager host = Ok w0 ->
  w_manager (snd (run_operations host ops w0)) = w_manager w0
  /\ cancels (cancel (w_manager (snd (run_operations host ops w0))))
     = context (w_manager w0)
  /\ w_locked (snd (run_operations host ops w0)) = false
  /\ Forall (fun e => is_lock e = false) (w_trace (snd (run_operations host ops w0)))
  /\ Forall (through_manager (w_manager w0))
       (w_trace (snd (run_operations host ops w0))).
Proof.
  intros Hnew.
  destruct (run_operations_steps host ops w0) as (evs & Hm & Hl & Ht & Hf & Hg).
  unfold NewDockerManager in Hnew.
  destruct (client_NewEnvClient host) as [cli|err]; [ | discriminate ].
  injection Hnew as <-. cbn [w_manager w_locked w_trace] in *.
  rewrite Hm, Hl, Ht. cbn. now repeat split.
Qed.

Lemma manager_lifetime_witness :
  w_manager
    (snd (run_operations Examples.healthy
            [OpHasImage "alpine"; OpPullImage "alpine";
             OpContainerCreate Examples.scenario; OpGetSystemMounts]
            Examples.world))
  = w_manager Examples.world.
Proof.
  exact (proj1 (manager_lifetime Examples.healthy Examples.world
                  [OpHasImage "alpine"; OpPullImage "alpine";
                   OpContainerCreate Examples.scenario; OpGetSystemMounts]
                  eq_refl)).
Defined.

(** ** The auth blob: [base64.URLEncoding] *)

(** What the table [encodeURL] holds, checked entry by entry: the 64
    entries are pairwise different, none is the padding byte, and all are
    URL-safe. *)
Lemma encodeURL_table :
  forallb
    (fun i =>
       forallb
         (fun j =>
            implb (Ascii.eqb (enc_encode (N.of_nat i)) (enc_encode (N.of_nat j)))
                  (Nat.eqb i j))
         (seq 0 64)
       && negb (Ascii.eqb (enc_encode (N.of_nat i)) StdPadding)
       && url_safe_byte (enc_encode (N.of_nat i)))
    (seq 0 64)
  = true.
Proof. vm_compute. reflexivity. Qed.

Lemma encodeURL_entry (i : N) :
  (i < 64)%N ->
  (forall j, (j < 64)%N -> enc_encode i = enc_encode j -> i = j)
  /\ enc_encode i <> StdPadding
  /\ url_safe_byte (enc_encode i) = true.
Proof.
  intros Hi. pose proof encodeURL_table as Htable.
  rewrite forallb_forall in Htable.
  specialize (Htable (N.to_nat i)). rewrite N2Nat.id in Htable.
  assert (Hrow : In (N.to_nat i) (seq 0 64)) by (apply in_seq; lia).
  apply Htable in Hrow. apply andb_true_iff in Hrow as [Hrow Hsafe].
  apply andb_true_iff in Hrow as [Hinj Hpad].
  split; [ | split; [ | exact Hsafe ] ].
  - intros j Hj Heq. rewrite forallb_forall in Hinj.
    assert (Hcol : In (N.to_nat j) (seq 0 64)) by (apply in_seq; lia).
    apply Hinj in Hcol.
    rewrite N2Nat.id, Heq, Ascii.eqb_refl in Hcol. rename Hcol into Hinj'.
    clear Hinj. rename Hinj' into Hinj. cbn [implb] in Hinj.
    apply Nat.eqb_eq in Hinj. lia.
  - intros Heq. rewrite Heq, Ascii.eqb_refl in Hpad. discriminate.
Qed.

Lemma sextet_bound (x : N) : (N.land x 0x3F < 64)%N.
Proof.
  change 0x3F%N with (N.ones 6). rewrite N.land_ones.
  now apply N.mod_lt.
Qed.

(** Strings taken three bytes at a time, as the encoder takes them. *)
Lemma string_ind3 (P : string -> Prop) :
  P "" ->
  (forall a, P (String a "")) ->
  (forall a b, P (String a (String b ""))) ->
  (forall a b c s, P s -> P (String a (String b (String c s)))) ->
  forall s, P s.
Proof.
  intros H0 H1 H2 H3 s.
  enough (Hall : P s /\ (forall a, P (String a s)) /\ (forall a b, P (String a (String b s))))
    by exact (proj1 Hall).
  induction s as [|c s (IH0 & IH1 & IH2)].
  - now repeat split.
  - split; [ apply IH1 | ]. split; [ intros a; apply IH2 | ].
    intros a b. apply H3. exact IH0.
Qed.

Lemma base64_Encode_url_safe (src : string) :
  url_safe (base64_Encode src) = true.
Proof.
  induction src as [| a | a b | a b c s IH] using string_ind3;
    [ reflexivity | | | ];
    cbn [base64_Encode]; unfold url_safe; cbn [list_ascii_of_string forallb];
    repeat match goal with
      | |- context [url_safe_byte (enc_encode (N.land ?x 63))] =>
          rewrite (proj2 (proj2 (encodeURL_entry _ (sextet_bound x))))
      end; try reflexivity.
  exact IH.
Qed.

Lemma base64_Encode_length (src : string) :
  String.length (base64_Encode src) = 4 * ((String.length src + 2) / 3).
Proof.
  induction src as [| a | a b | a b c s IH] using string_ind3;
    [ reflexivity | reflexivity | reflexivity | ].
  cbn [base64_Encode String.length]. rewrite IH.
  replace (S (S (S (String.length s))) + 2) with (1 * 3 + (String.length s + 2)) by lia.
  rewrite Nat.div_add_l by discriminate. lia.
Qed.

(** The JSON of a credential object is never empty. *)
Lemma json_Marshal_AuthConfig_nonempty (a : AuthConfig) (encodedJSON : string) :
  json_Marshal (reflect_AuthConfig_ptr (addr_of a)) = Ok encodedJSON ->
  encodedJSON <> "".
Proof.
  unfold json_Marshal, reflect_AuthConfig_ptr, addr_of, reflect_AuthConfig.
  cbn [marshal_value].
  destruct (marshal_fields _ true); [ | discriminate ].
  intros [= <-]. discriminate.
Qed.

(** X20: the auth blob of every pull call is a well-formed URL-safe
    base64 string: it is not empty, its length is a multiple of four, and
    it is made of the letters, digits, ['-'] and ['_'] of the URL-safe
    alphabet and of the padding ['='] only, whatever the stored username
    and password hold. *)
Theorem PullImage_auth_blob_well_formed (host : Host) (image : string) (w : World)
    (cli : Client) (ctx : Context) (ref : string) (opts : ImagePullOptions) :
  EvImagePull cli ctx ref opts ∈ new_events (PullImage host image) w ->
  RegistryAuth opts <> ""
  /\ (exists groups, 0 < groups /\ String.length (RegistryAuth opts) = 4 * groups)
  /\ url_safe (RegistryAuth opts) = true.
Proof.
  intros Hin.
  destruct (reference_ParseNormalizedNamed host image) as [named|perr] eqn:Hparse.
  - destruct (PullImage_parsed host image named w Hparse) as (encodedJSON & Hjson & Hrun).
    rewrite getAuthConfig_run in Hjson. cbn [fst] in Hjson.
    apply json_Marshal_AuthConfig_nonempty in Hjson.
    assert (Hopts : opts = {| RegistryAuth := base64_URLEncoding_EncodeToString encodedJSON |}).
    { cbn zeta in Hrun.
      destruct (client_ImagePull host _ _ image _); destruct Hrun as [_ Hevents];
        rewrite Hevents in Hin;
        (apply elem_of_cons in Hin as [Hin|Hin]; [ discriminate Hin | ]);
        (apply elem_of_cons in Hin as [Hin|Hin]; [ now injection Hin | ]);
        absent_from_trace Hin. }
    subst opts. cbn [RegistryAuth]. unfold base64_URLEncoding_EncodeToString.
    assert (Hlen : 0 < (String.length encodedJSON + 2) / 3).
    { destruct encodedJSON as [|a rest]; [ contradiction | ].
      cbn [String.length]. apply Nat.div_str_pos. lia. }
    split; [ | split ].
    + intros Hempty. pose proof (base64_Encode_length encodedJSON) as Hl.
      rewrite Hempty in Hl. cbn [String.length] in Hl. lia.
    + eexists. split; [ exact Hlen | apply base64_Encode_length ].
    + apply base64_Encode_url_safe.
  - destruct (PullImage_unparsed host image w perr Hparse) as [_ Hevents].
    rewrite Hevents in Hin. absent_from_trace Hin.
Qed.

Lemma PullImage_auth_blob_well_formed_witness :
  url_safe "eyJ1c2VybmFtZSI6ImJvYiIsInBhc3N3b3JkIjoic2VjcmV0In0=" = true.
Proof.
  refine (proj2 (proj2 (PullImage_auth_blob_well_formed Examples.healthy
                          "registry.example.com/team/app:1.2" Examples.world
                          (client (w_manager Examples.world))
                          (context (w_manager Examples.world))
                          "registry.example.com/team/app:1.2"
                          {| RegistryAuth :=
                               "eyJ1c2VybmFtZSI6ImJvYiIsInBhc3N3b3JkIjoic2VjcmV0In0=" |}
                          _))).
  apply list_elem_of_further, list_elem_of_here.
Defined.

(** *** The encoding loses nothing *)

Lemma land_shiftl_small (a b k : N) : (b < 2 ^ k)%N -> N.land (a * 2 ^ k) b = 0%N.
Proof.
  intros Hb. apply N.bits_inj. intros n. rewrite N.land_spec, N.bits_0.
  destruct (N.lt_ge_cases n k) as [Hlt|Hge].
  - now rewrite N.mul_pow2_bits_low.
  - replace b with (b mod 2 ^ k)%N by now apply N.mod_small.
    rewrite N.mod_pow2_bits_high by exact Hge. apply andb_false_r.
Qed.

(** Below the shifted part, [|] is [+]. *)
Lemma lor_shiftl_add (a b k : N) :
  (b < 2 ^ k)%N -> N.lor (N.shiftl a k) b = (a * 2 ^ k + b)%N.
Proof.
  intros Hb. rewrite N.shiftl_mul_pow2.
  rewrite N.add_nocarry_lxor by now apply land_shiftl_small.
  symmetry. apply N.lxor_lor. now apply land_shiftl_small.
Qed.

Lemma byte_of_bound (a : ascii) : (byte_of a < 256)%N.
Proof. apply N_ascii_bounded. Qed.

Lemma byte_of_inj (a b : ascii) : byte_of a = byte_of b -> a = b.
Proof.
  unfold byte_of. intros Heq.
  rewrite <- (ascii_N_embedding a), <- (ascii_N_embedding b). now rewrite Heq.
Qed.

(** The 24-bit group of three, two and one source bytes. *)
Lemma group_of_two (a b : ascii) :
  N.lor (N.shiftl (byte_of a) 16) (N.shiftl (byte_of b) 8)
  = (byte_of a * 65536 + byte_of b * 256)%N.
Proof.
  pose proof (byte_of_bound b) as Hb.
  rewrite (N.shiftl_mul_pow2 (byte_of b)).
  rewrite lor_shiftl_add by (change (2 ^ 8)%N with 256%N; change (2 ^ 16)%N with 65536%N; lia).
  reflexivity.
Qed.

Lemma group_of_three (a b c : ascii) :
  N.lor (N.lor (N.shiftl (byte_of a) 16) (N.shiftl (byte_of b) 8)) (byte_of c)
  = (byte_of a * 65536 + byte_of b * 256 + byte_of c)%N.
Proof.
  pose proof (byte_of_bound c) as Hc.
  rewrite group_of_two.
  replace (byte_of a * 65536 + byte_of b * 256)%N
    with (N.shiftl (byte_of a * 256 + byte_of b) 8)
    by (rewrite N.shiftl_mul_pow2; change (2 ^ 8)%N with 256%N; lia).
  rewrite lor_shiftl_add by exact Hc.
  rewrite ?N.shiftl_mul_pow2. change (2 ^ 8)%N with 256%N. lia.
Qed.

Lemma group_of_one (a : ascii) : N.shiftl (byte_of a) 16 = (byte_of a * 65536)%N.
Proof. now rewrite N.shiftl_mul_pow2. Qed.

(** The four 6-bit digits of a group. *)
Lemma sextet_18 (v : N) : N.land (N.shiftr v 18) 0x3F = ((v / 262144) mod 64)%N.
Proof.
  change 0x3F%N with (N.ones 6). now rewrite N.land_ones, N.shiftr_div_pow2.
Qed.

Lemma sextet_12 (v : N) : N.land (N.shiftr v 12) 0x3F = ((v / 4096) mod 64)%N.
Proof.
  change 0x3F%N with (N.ones 6). now rewrite N.land_ones, N.shiftr_div_pow2.
Qed.

Lemma sextet_6 (v : N) : N.land (N.shiftr v 6) 0x3F = ((v / 64) mod 64)%N.
Proof.
  change 0x3F%N with (N.ones 6). now rewrite N.land_ones, N.shiftr_div_pow2.
Qed.

Lemma sextet_0 (v : N) : N.land v 0x3F = (v mod 64)%N.
Proof. change 0x3F%N with (N.ones 6). now rewrite N.land_ones. Qed.

(** A group is the sum of its digits, and so are its leading parts. *)
Lemma digits_two (v : N) :
  (v < 16777216)%N ->
  (v / 4096 = (v / 262144) mod 64 * 64 + (v / 4096) mod 64)%N.
Proof.
  intros Hv.
  pose proof (N.div_mod (v / 4096) 64 ltac:(discriminate)) as H2.
  rewrite N.Div0.div_div in H2. change (4096 * 64)%N with 262144%N in H2.
  assert (H3 : ((v / 262144) mod 64 = v / 262144)%N)
    by (apply N.mod_small, N.Div0.div_lt_upper_bound; exact Hv).
  rewrite H3. lia.
Qed.

Lemma digits_three (v : N) :
  (v < 16777216)%N ->
  (v / 64 = (v / 262144) mod 64 * 4096 + (v / 4096) mod 64 * 64 + (v / 64) mod 64)%N.
Proof.
  intros Hv. pose proof (digits_two v Hv) as H2.
  pose proof (N.div_mod (v / 64) 64 ltac:(discriminate)) as H1.
  rewrite N.Div0.div_div in H1. change (64 * 64)%N with 4096%N in H1. lia.
Qed.

Lemma digits_four (v : N) :
  (v < 16777216)%N ->
  (v = (v / 262144) mod 64 * 262144 + (v / 4096) mod 64 * 4096
       + (v / 64) mod 64 * 64 + v mod 64)%N.
Proof.
  intros Hv. pose proof (digits_three v Hv) as H3.
  pose proof (N.div_mod v 64 ltac:(discriminate)) as H0. lia.
Qed.

(** Equal letters of the alphabet stand for equal digits. *)
Lemma enc_encode_digit (x y : N) :
  enc_encode (N.land x 0x3F) = enc_encode (N.land y 0x3F) ->
  N.land x 0x3F = N.land y 0x3F.
Proof.
  intros Heq.
  exact (proj1 (encodeURL_entry _ (sextet_bound x)) _ (sextet_bound y) Heq).
Qed.

Lemma enc_encode_not_padding (x : N) : enc_encode (N.land x 0x3F) <> StdPadding.
Proof. exact (proj1 (proj2 (encodeURL_entry _ (sextet_bound x)))). Qed.

Lemma group_eq_four (v v' : N) :
  (v < 16777216)%N -> (v' < 16777216)%N ->
  ((v / 262144) mod 64 = (v' / 262144) mod 64)%N ->
  ((v / 4096) mod 64 = (v' / 4096) mod 64)%N ->
  ((v / 64) mod 64 = (v' / 64) mod 64)%N ->
  (v mod 64 = v' mod 64)%N ->
  v = v'.
Proof.
  intros Hv Hv' H18 H12 H6 H0.
  rewrite (digits_four v Hv), H18, H12, H6, H0. symmetry. exact (digits_four v' Hv').
Qed.

Lemma group_eq_three (v v' : N) :
  (v < 16777216)%N -> (v' < 16777216)%N ->
  ((v / 262144) mod 64 = (v' / 262144) mod 64)%N ->
  ((v / 4096) mod 64 = (v' / 4096) mod 64)%N ->
  ((v / 64) mod 64 = (v' / 64) mod 64)%N ->
  (v / 64 = v' / 64)%N.
Proof.
  intros Hv Hv' H18 H12 H6.
  rewrite (digits_three v Hv), H18, H12, H6. symmetry. exact (digits_three v' Hv').
Qed.

Lemma group_eq_two (v v' : N) :
  (v < 16777216)%N -> (v' < 16777216)%N ->
  ((v / 262144) mod 64 = (v' / 262144) mod 64)%N ->
  ((v / 4096) mod 64 = (v' / 4096) mod 64)%N ->
  (v / 4096 = v' / 4096)%N.
Proof.
  intros Hv Hv' H18 H12.
  rewrite (digits_two v Hv), H18, H12. symmetry. exact (digits_two v' Hv').
Qed.

(** A letter of the alphabet where the other encoding has padding. *)
Ltac padding_clash :=
  match goal with
  | H : enc_encode (N.land _ _) = StdPadding |- _ =>
      exact (False_ind _ (enc_encode_not_padding _ H))
  | H : StdPadding = enc_encode (N.land _ _) |- _ =>
      exact (False_ind _ (enc_encode_not_padding _ (eq_sym H)))
  end.

(** The digits behind equal letters, as quotients of the groups. *)
Ltac digits_of_letters :=
  repeat match goal with
    | H : enc_encode (N.land _ _) = enc_encode (N.land _ _) |- _ =>
        apply enc_encode_digit in H
    end;
  repeat match goal with
    | H : _ |- _ =>
        progress rewrite ?group_of_three, ?group_of_two, ?group_of_one,
          ?sextet_18, ?sextet_12, ?sextet_6, ?sextet_0 in H
    end.

(** X21: the auth blob loses nothing of the JSON it encodes: two byte
    strings with the same URL-safe base64 encoding are the same string. *)
Theorem base64_URLEncoding_injective (src1 src2 : string) :
  base64_URLEncoding_EncodeToString src1 = base64_URLEncoding_EncodeToString src2 ->
  src1 = src2.
Proof.
  unfold base64_URLEncoding_EncodeToString. revert src2.
  induction src1 as [| a | a b | a b c src1 IH] using string_ind3;
    intros src2 Heq; destruct src2 as [|a' [|b' [|c' src2]]];
    cbn [base64_Encode] in Heq; try discriminate Heq; try reflexivity;
    injection Heq; clear Heq; intros; try padding_clash; digits_of_letters.
  - pose proof (byte_of_bound a). pose proof (byte_of_bound a').
    assert (Hq : (byte_of a * 65536 / 4096 = byte_of a' * 65536 / 4096)%N)
      by (apply group_eq_two; (assumption || lia)).
    replace (byte_of a * 65536)%N with (byte_of a * 16 * 4096)%N in Hq by lia.
    replace (byte_of a' * 65536)%N with (byte_of a' * 16 * 4096)%N in Hq by lia.
    rewrite !N.div_mul in Hq by discriminate.
    f_equal. apply byte_of_inj. lia.
  - pose proof (byte_of_bound a). pose proof (byte_of_bound a').
    pose proof (byte_of_bound b). pose proof (byte_of_bound b').
    assert (Hq : ((byte_of a * 65536 + byte_of b * 256) / 64
                  = (byte_of a' * 65536 + byte_of b' * 256) / 64)%N)
      by (apply group_eq_three; (assumption || lia)).
    replace (byte_of a * 65536 + byte_of b * 256)%N
      with ((byte_of a * 1024 + byte_of b * 4) * 64)%N in Hq by lia.
    replace (byte_of a' * 65536 + byte_of b' * 256)%N
      with ((byte_of a' * 1024 + byte_of b' * 4) * 64)%N in Hq by lia.
    rewrite !N.div_mul in Hq by discriminate.
    assert (byte_of a = byte_of a' /\ byte_of b = byte_of b') as [Ha Hb] by lia.
    apply byte_of_inj in Ha, Hb. now subst.
  - pose proof (byte_of_bound a). pose proof (byte_of_bound a').
    pose proof (byte_of_bound b). pose proof (byte_of_bound b').
    pose proof (byte_of_bound c). pose proof (byte_of_bound c').
    assert (Hq : (byte_of a * 65536 + byte_of b * 256 + byte_of c
                  = byte_of a' * 65536 + byte_of b' * 256 + byte_of c')%N)
      by (apply group_eq_four; (assumption || lia)).
    assert (byte_of a = byte_of a' /\ byte_of b = byte_of b'
            /\ byte_of c = byte_of c') as (Ha & Hb & Hc) by lia.
    apply byte_of_inj in Ha, Hb, Hc. subst.
    f_equal. f_equal. f_equal. now apply IH.
Qed.

Lemma base64_URLEncoding_injective_witness :
  base64_URLEncoding_EncodeToString "{}" = "e30=" /\ "{}" = "{}".
Proof.
  split; [ reflexivity | ].
  exact (base64_URLEncoding_injective "{}" "{}" eq_refl).
Defined.

(** ** The blob of plain credentials *)

Lemma encode_string_loop_plain (s : string) :
  plain s = true -> encode_string_loop 0 true s = s.
Proof.
  unfold plain. induction s as [|a s IH]; [ reflexivity | ].
  cbn [list_ascii_of_string forallb]. intros [Ha Hs]%andb_true_iff.
  cbn [encode_string_loop]. rewrite Ha.
  assert (Hlow : (byte_of a <? 128)%N = true).
  { unfold htmlSafeSet in Ha.
    apply andb_true_iff in Ha as [Ha _]. now apply andb_true_iff in Ha as [_ Ha]. }
  rewrite Hlow. now rewrite (IH Hs).
Qed.

Lemma encode_string_plain (s : string) : plain s = true -> encode_string s = quoted s.
Proof.
  intros Hs. unfold encode_string, quoted. now rewrite encode_string_loop_plain.
Qed.

(** X23: for a stored entry whose username and password are not empty
    and made of plain bytes (printable ASCII other than the double quote,
    the backslash and the HTML characters), the daemon receives the
    base64 of the JSON object that holds exactly these two members, the
    values as stored. *)
Theorem PullImage_plain_credentials (host : Host) (image : string) (named : Named)
    (w : World) (stored : AuthConfiguration) :
  reference_ParseNormalizedNamed host image = Ok named ->
  stored_credentials host (reference_Domain named) = Some stored ->
  ac_Username stored <> "" ->
  ac_Password stored <> "" ->
  plain (ac_Username stored) = true ->
  plain (ac_Password stored) = true ->
  new_daemon_calls (PullImage host image) w
  = [EvImagePull (client (w_manager w)) (context (w_manager w)) image
       {| RegistryAuth :=
            base64_URLEncoding_EncodeToString
              (credentials_json (ac_Username stored) (ac_Password stored)) |}].
Proof.
  intros Hparse Hstored Hu Hp Hplain_u Hplain_p.
  destruct (PullImage_call_shape host image named w Hparse) as (encodedJSON & Hjson & ->).
  rewrite Hstored in Hjson.
  unfold json_Marshal, reflect_AuthConfig_ptr, addr_of, reflect_AuthConfig,
    credentials_of in Hjson.
  cbn [marshal_value marshal_fields Username Password Auth Email ServerAddress
         IdentityToken RegistryToken] in Hjson.
  destruct (ac_Username stored) as [|u0 u] eqn:Hueq; [ contradiction | ].
  destruct (ac_Password stored) as [|p0 p] eqn:Hpeq; [ contradiction | ].
  cbn [isEmptyValue String.length Nat.eqb andb marshal_fields] in Hjson.
  rewrite (encode_string_plain _ Hplain_u), (encode_string_plain _ Hplain_p) in Hjson.
  injection Hjson as <-. reflexivity.
Qed.

Lemma PullImage_plain_credentials_witness :
  new_daemon_calls
    (PullImage Examples.healthy "registry.example.com/team/app:1.2") Examples.world
  = [EvImagePull (client (w_manager Examples.world))
       (context (w_manager Examples.world)) "registry.example.com/team/app:1.2"
       {| RegistryAuth :=
            base64_URLEncoding_EncodeToString (credentials_json "bob" "secret") |}].
Proof.
  refine (PullImage_plain_credentials Examples.healthy
            "registry.example.com/team/app:1.2"
            {| named_domain := "registry.example.com"; named_path := "team/app";
               named_tag := Some "1.2"; named_digest := None |}
            Examples.world
            {| ac_Username := "bob"; ac_Password := "secret";
               ac_Email := "bob@example.com";
               ac_ServerAddress := "registry.example.com";
               ac_IdentityToken := "idtoken"; ac_RegistryToken := "" |}
            _ _ _ _ _ _); (reflexivity || discriminate).
Defined.

(** ** No retries *)

Lemma run_operation_calls (host : Host) (op : Operation) (w : World) :
  length (new_daemon_calls (run_operation host op) w) <= 1.
Proof.
  assert (Hdrop : forall (A : Type) (c : M A),
             new_daemon_calls (bind c (fun _ => ret tt)) w = new_daemon_calls c w).
  { intros A c. unfold new_daemon_calls, new_events, bind, ret.
    now destruct (c w). }
  destruct op as [image|image|config|]; cbn [run_operation]; rewrite Hdrop.
  - destruct (reference_ParseNormalizedNamed host image) as [named|perr] eqn:Hparse.
    + destruct (PullImage_call_shape host image named w Hparse) as (j & _ & ->).
      reflexivity.
    + destruct (PullImage_unparsed host image w perr Hparse) as [_ Hevents].
      unfold new_daemon_calls. rewrite Hevents. vm_compute. lia.
  - destruct (String.eqb_spec image "") as [->|Hne].
    + unfold new_daemon_calls. rewrite new_events_same by reflexivity.
      vm_compute. lia.
    + now rewrite HasImage_calls.
  - destruct (os_Getwd host) as [wd|err] eqn:Hwd.
    + now rewrite (ContainerCreate_call host config w wd Hwd).
    + destruct (ContainerCreate_no_wd host config w err Hwd) as [_ Hevents].
      unfold new_daemon_calls. rewrite Hevents. vm_compute. lia.
  - unfold new_daemon_calls. rewrite new_events_same by reflexivity.
    vm_compute. lia.
Qed.

(** X22: nothing is retried: any sequence of calls of the four methods
    sends the daemon at most as many calls as there are method calls in
    the sequence. *)
Theorem no_retries (host : Host) (ops : list Operation) (w : World) :
  length (new_daemon_calls (run_operations host ops) w) <= length ops.
Proof.
  revert w. induction ops as [|op ops IH]; intros w.
  - unfold new_daemon_calls. rewrite new_events_same by reflexivity.
    vm_compute. lia.
  - pose proof (run_operation_calls host op w) as Hop.
    destruct (run_operation_step host op w) as (evs1 & _ & _ & Ht1 & _).
    destruct (run_operation host op w) as [[] w1] eqn:Hrun. cbn [snd] in Ht1.
    assert (Hcons : run_operations host (op :: ops) w = run_operations host ops w1)
      by (cbn [run_operations]; unfold bind; now rewrite Hrun).
    destruct (run_operations_steps host ops w1) as (evs2 & _ & _ & Ht2 & _).
    specialize (IH w1).
    unfold new_daemon_calls in *.
    rewrite (new_events_ext (run_operation host op) w evs1) in Hop
      by (now rewrite Hrun).
    rewrite (new_events_ext (run_operations host ops) w1 evs2 Ht2) in IH.
    rewrite (new_events_ext (run_operations host (op :: ops)) w (evs1 ++ evs2))
      by (rewrite Hcons, Ht2, Ht1; now rewrite <- app_assoc).
    rewrite filter_app, length_app. cbn [length]. lia.
Qed.
